(** * Identifier normalisation of [mergem_reaction_mapping]

    A shallow embedding of the functions of the notebook
    [mergem_reaction_mapping]: the mapping functions of section 2.2
    ("Functions for model mapping"), the mapping cells of section 3, and
    the inspection functions of section 2.1, with the properties the
    specification states about them and further properties of the code.

    Python strings are modelled as [string]; the three characters the
    code inspects (the letters of [MNX], [_] and [~]) are ASCII, and no
    byte of a multi-byte UTF-8 character is ASCII, so matching bytes and
    matching code points agree. *)

From Stdlib Require Import ZArith Ascii String.
From stdpp Require Import gmap strings list pretty.

Local Open Scope Z_scope.

(** ** The regular expression of [extract_core_id] *)

(** The call is [re.search(p, s)], where the raw pattern [p] reads: the
    literal [MNX], then a non-capturing group made optional by [?], which
    holds a greedy star over the class [[^\_~]].  In the class
    [\_] is the escaped underscore, so the class is every character but
    [_] and [~] (a negated class also takes a newline).  Nothing follows
    the group, hence the engine never backtracks into it: at a position
    where [MNX] is read, the match is [MNX] and the longest run of class
    characters after it. *)
Module Re.

(** The class [[^\_~]]. *)
Definition in_class (c : ascii) : bool :=
  negb (Ascii.eqb c "_"%char || Ascii.eqb c "~"%char).

(** The greedy star over the class: what it consumes at the head of [s]. *)
Fixpoint class_star (s : string) : string :=
  match s with
  | EmptyString => EmptyString
  | String c r => if in_class c then String c (class_star r) else EmptyString
  end.

(** Reading the literal [lit] at the head of [s]: the text after it. *)
Fixpoint literal (lit s : string) : option string :=
  match lit, s with
  | EmptyString, _ => Some s
  | String a lit', String b s' =>
      if Ascii.eqb a b then literal lit' s' else None
  | String _ _, EmptyString => None
  end.

(** The pattern tried at the head of [s]: [group(0)] of the match. *)
Definition match_here (s : string) : option string :=
  match literal "MNX" s with
  | Some rest => Some ("MNX" +:+ class_star rest)
  | None => None
  end.

(** [re.search]: the pattern is tried at each position from the left,
    the end of the string included; the first position that matches
    wins. *)
Fixpoint search (s : string) : option string :=
  match match_here s with
  | Some m => Some m
  | None =>
      match s with
      | EmptyString => None
      | String _ r => search r
      end
  end.

End Re.

(** [extract_core_id(s)]:
    [match = re.search(...); return match.group(0) if match else s]. *)
Definition extract_core_id (s : string) : string :=
  match Re.search s with
  | Some m => m
  | None => s
  end.


(** ** The data model: what the code reads of a cobra model *)

(** A metabolite, as [export_mergem_mapping] and [is_transport] read it:
    [met.id] and [met.compartment] ([met.formula] is only printed by the
    inspection functions). *)
Module Metabolite.
Record t : Type := Build
  { id : string;
    compartment : string;
    formula : option string }.
End Metabolite.

(** A reaction: [rxn.id], [rxn.boundary], and [rxn.metabolites], the
    stoichiometry dictionary.  The code only iterates over the keys of the
    dictionary, so it is modelled by its keys in iteration order; the
    coefficients are never read. *)
Module Reaction.
Record t : Type := Build
  { id : string;
    metabolites : list Metabolite.t;
    boundary : bool }.
End Reaction.

(** A model: [model.reactions] and [model.metabolites], in the model's
    order. *)
Module Model.
Record t : Type := Build
  { reactions : list Reaction.t;
    metabolites : list Metabolite.t }.
End Model.

(** ** Transport classification *)

(** Truth value of a Python [int] in a condition. *)
Definition truthy (n : Z) : bool := negb (n =? 0).

(** [is_transport(reaction)]: the compartments of the metabolites are
    collected into a set; more than one element gives [1], otherwise the
    boundary flag decides. *)
Definition is_transport (reaction : Reaction.t) : Z :=
  let compartments : gset string :=
    list_to_set (Metabolite.compartment <$> Reaction.metabolites reaction) in
  if (1 <? size compartments)%nat then 1
  else if Reaction.boundary reaction then 1
  else 0.

(** The derived set of the data model: the distinct compartments touched
    by the metabolites of a reaction. *)
Definition touched_compartments (reaction : Reaction.t) : gset string :=
  list_to_set (Metabolite.compartment <$> Reaction.metabolites reaction).

(** ** Data frames, exceptions and the file system *)

(** A cell of a table: the columns built here hold strings or ints. *)
Inductive Cell : Type :=
  | Str (s : string)
  | Int (n : Z).

(** A data frame as it is built from a dictionary of columns: the column
    names with their values, in the order of the dictionary. *)
Definition DataFrame : Type := list (string * list Cell).

(** The exceptions that reach the top level: the [ValueError] of
    [pd.DataFrame] on columns of unequal length, the [OSError] of
    [to_csv] on a file that cannot be opened for writing, and whatever
    the external translator raises, kept by the name of its class. *)
Inductive exn : Type :=
  | ValueError
  | OSError
  | Raised (class : string).

(** [pd.DataFrame(data)] for a dictionary of lists: all the lists must
    have the same length. *)
Definition pd_DataFrame (data : list (string * list Cell)) : exn + DataFrame :=
  match data with
  | [] => inr []
  | (_, c) :: rest =>
      if forallb (fun kc => (length kc.2 =? length c)%nat) rest
      then inr data
      else inl ValueError
  end.

(** The number of rows of a frame. *)
Definition nrows (df : DataFrame) : nat :=
  match df with
  | [] => 0%nat
  | (_, c) :: _ => length c
  end.

(** The [i]-th row: the [i]-th cell of each column, in column order. *)
Definition row (i : nat) (df : DataFrame) : option (list Cell) :=
  mapM (fun kc => kc.2 !! i) df.

(** The operating system, as far as [to_csv] depends on it: the file
    that a path names (two spellings of a path, or a link, can name one
    file), and whether the file at a path can be opened for writing (its
    folder exists, it is not read-only); neither changes during a run. *)
Record OS : Type := Build_OS
  { file_of : string -> string;
    can_write : string -> bool }.

(** The world that the notebook acts on: the tables on disk, by file, and
    the writes completed so far, each with the path that the call gave
    and the frame it wrote, in order. *)
Record World : Type := Build_World
  { disk : gmap string DataFrame;
    log : list (string * DataFrame) }.

(** Computations that write files and may raise: the state reached when
    an exception is raised is kept. *)
Definition M (A : Type) : Type := World -> (exn + A) * World.

#[global] Instance M_ret : MRet M := fun A (a : A) w => (inr a, w).

#[global] Instance M_bind : MBind M := fun A B (k : A -> M B) (m : M A) w =>
  match m w with
  | (inl e, w') => (inl e, w')
  | (inr a, w') => k a w'
  end.

(** A pure step that returns or raises. *)
Definition lift {A : Type} (r : exn + A) : M A := fun w => (r, w).

(** [df.to_csv(path, index=False)]: the file is opened for writing, which
    raises [OSError] and changes nothing when it cannot be; otherwise
    the frame replaces what the file held. *)
Definition to_csv (os : OS) (df : DataFrame) (path : string) : M unit :=
  fun w =>
    if can_write os path
    then (inr tt,
          {| disk := <[file_of os path := df]> (disk w);
             log := log w ++ [(path, df)] |})
    else (inl OSError, w).

(** ** The mapping of one model *)

(** The lists that [export_mergem_mapping] computes from the mapped
    model, under the names of its local variables. *)
Definition metanetx_rxn_ids (mapped_model : Model.t) : list string :=
  Reaction.id <$> Model.reactions mapped_model.

Definition transport_rxn_class (mapped_model : Model.t) : list Z :=
  is_transport <$> Model.reactions mapped_model.

Definition final_rxn_id (rxn : Reaction.t) : string :=
  if negb (truthy (is_transport rxn)) then extract_core_id (Reaction.id rxn)
  else "Transport removed".

Definition core_metanetx_rxn_ids (mapped_model : Model.t) : list string :=
  final_rxn_id <$> Model.reactions mapped_model.

Definition metanetx_met_ids (mapped_model : Model.t) : list string :=
  Metabolite.id <$> Model.metabolites mapped_model.

Definition core_metanetx_met_ids (mapped_model : Model.t) : list string :=
  (fun met => extract_core_id (Metabolite.id met)) <$> Model.metabolites mapped_model.

Definition rxn_path (output_mapping_path model_name : string) : string :=
  output_mapping_path +:+ "/" +:+ model_name +:+ "_rxn_mergem_mapping.csv".

Definition met_path (output_mapping_path model_name : string) : string :=
  output_mapping_path +:+ "/" +:+ model_name +:+ "_met_mergem_mapping.csv".

(** The dictionaries handed to [pd.DataFrame] for [rxn_df] and [met_df]:
    the columns, in the order they are written. *)
Definition rxn_columns (original_rxn_ids : list string) (mapped_model : Model.t)
    : list (string * list Cell) :=
  [ ("Original ID", Str <$> original_rxn_ids);
    ("Raw MetaNetX ID", Str <$> metanetx_rxn_ids mapped_model);
    ("transport", Int <$> transport_rxn_class mapped_model);
    ("Final ID", Str <$> core_metanetx_rxn_ids mapped_model) ].

Definition met_columns (original_met_ids : list string) (mapped_model : Model.t)
    : list (string * list Cell) :=
  [ ("Original ID", Str <$> original_met_ids);
    ("Raw MetaNetX ID", Str <$> metanetx_met_ids mapped_model);
    ("Final ID", Str <$> core_metanetx_met_ids mapped_model) ].

Section Mapping.

(** The operating system under the notebook. *)
Variable os : OS.

(** [mergem.translate(model, 'metanetx')], the external translator: it
    returns the mapped model or raises.  The identifiers of the original
    model are copied into lists of strings before the call, so whether
    the translator renames in place or builds a new model makes no
    difference below. *)
Variable translate : Model.t -> exn + Model.t.

(** [export_mergem_mapping(model, model_name, output_mapping_path)]:
    both frames are built before the first file is written. *)
Definition export_mergem_mapping
    (model : Model.t) (model_name output_mapping_path : string) : M unit :=
  let original_rxn_ids := Reaction.id <$> Model.reactions model in
  let original_met_ids := Metabolite.id <$> Model.metabolites model in
  mapped_model ← lift (translate model);
  rxn_df ← lift (pd_DataFrame (rxn_columns original_rxn_ids mapped_model));
  met_df ← lift (pd_DataFrame (met_columns original_met_ids mapped_model));
  to_csv os rxn_df (rxn_path output_mapping_path model_name);;
  to_csv os met_df (met_path output_mapping_path model_name).

(** The folder of section 3.0. *)
Definition output_mapping_path : string := "mapping_results".

(** The cell of section 3.1.2: the three AuReMe models, one call after
    the other, with no handler around any of them. *)
Definition export_AuReMe (au_CHO au_A_aegypti au_E_siliculosus : Model.t) : M unit :=
  export_mergem_mapping au_CHO "au_CHO" output_mapping_path;;
  export_mergem_mapping au_A_aegypti "au_A_aegypti" output_mapping_path;;
  export_mergem_mapping au_E_siliculosus "au_E_siliculosus" output_mapping_path.

End Mapping.

(** ** Sample models, translators and systems *)

(** The translator of the specification's end-to-end test: identifiers
    are already in the target namespace and nothing is renamed. *)
Definition translate_id (model : Model.t) : exn + Model.t := inr model.

(** A translator that rejects a model without reactions and leaves the
    others as they are. *)
Definition translate_nonempty (model : Model.t) : exn + Model.t :=
  match Model.reactions model with
  | [] => inl (Raised "TranslationError")
  | _ :: _ => inr model
  end.

Definition met_c : Metabolite.t := Metabolite.Build "MNXM5_c" "c" None.
Definition met_e : Metabolite.t := Metabolite.Build "MNXM5_e" "e" None.

(** One reaction in each of two compartments, a boundary reaction, and a
    reaction across the two compartments. *)
Definition test_model : Model.t :=
  Model.Build
    [ Reaction.Build "MNXR1_c" [met_c] false;
      Reaction.Build "MNXR1_e" [met_e] false;
      Reaction.Build "MNXR2" [met_c] true;
      Reaction.Build "MNXR3" [met_c; met_e] false ]
    [ met_c; met_e ].

Definition empty_model : Model.t := Model.Build [] [].

(** A system in which every path names its own file and every file can be
    written; one in which the output folder is missing; and one in which
    the metabolite table of [au_A_aegypti] is read-only. *)
Definition plain_os : OS :=
  {| file_of := fun path => path; can_write := fun _ => true |}.

Definition no_folder_os : OS :=
  {| file_of := fun path => path; can_write := fun _ => false |}.

Definition locked_os : OS :=
  {| file_of := fun path => path;
     can_write := fun path =>
       negb (String.eqb path "mapping_results/au_A_aegypti_met_mergem_mapping.csv") |}.

Definition empty_world : World := {| disk := ∅; log := [] |}.

(** ** Cells of consecutive mappings (sections 3.1.2 to 3.13.2) *)

Section Cells.

Variable os : OS.
Variable translate : Model.t -> exn + Model.t.

(** A mapping cell: calls of [export_mergem_mapping] on loaded models
    with their names, one statement after the other, all of them with
    [output_mapping_path]. *)
Fixpoint mapping_cell (calls : list (Model.t * string)) : M unit :=
  match calls with
  | [] => mret tt
  | (model, model_name) :: rest =>
      export_mergem_mapping os translate model model_name output_mapping_path;;
      mapping_cell rest
  end.

End Cells.

(** The model names that the mapping cells of the notebook pass, cell by
    cell, in the order of the calls. *)
Definition notebook_names : list (list string) :=
  [ [ "au_CHO"; "au_A_aegypti"; "au_E_siliculosus" ];
    [ "cv_CHO"; "cv_A_aegypti"; "cv_E_siliculosus" ];
    [ "me_CHO"; "me_A_aegypti"; "me_E_siliculosus" ];
    [ "ms_CHO"; "ms_A_aegypti"; "ms_E_siliculosus" ];
    [ "pt_CHO"; "pt_A_aegypti"; "pt_E_siliculosus" ];
    [ "r_CHO"; "r_A_aegypti"; "r_E_siliculosus" ];
    [ "rh_CHO"; "rh_A_aegypti"; "rh_E_siliculosus" ];
    [ "rc_CHO"; "rc_A_aegypti"; "rc_E_siliculosus" ];
    [ "rec_CHO"; "rec_A_aegypti"; "rec_E_siliculosus" ];
    [ "au2_A_aegypti"; "au2_CHO"; "au2_E_siliculosus" ];
    [ "au3_A_aegypti"; "au3_CHO"; "au3_E_siliculosus" ];
    [ "au4_A_aegypti"; "au4_CHO"; "au4_E_siliculosus" ];
    [ "au5_CHO"; "au5_E_siliculosus" ] ].

(** ** Model inspection (section 2.1) *)

(** The newline character of the texts that start with an empty line. *)
Definition nl : string := String "010"%char "".

(** What one call [print(a, b, ...)] writes before the end of line: the
    texts of its arguments, one space between them.  The standard output
    is modelled by the list of these texts, one per call. *)
Definition py_print (args : list string) : string := String.concat " " args.

(** [str] of an [int], and of a formula, which is a string or [None]. *)
Definition str_int (n : Z) : string := pretty n.

Definition str_formula (formula : option string) : string :=
  default "None" formula.

(** The slice [l[:n]]: a negative [n] counts from the end. *)
Definition slice_to {A : Type} (l : list A) (n : Z) : list A :=
  if 0 <=? n then take (Z.to_nat n) l
  else take (length l - Z.to_nat (- n)) l.

(** [s.split(sep)] for a separator of one character. *)
Fixpoint str_split (sep : ascii) (s : string) : list string :=
  match s with
  | EmptyString => [EmptyString]
  | String c r =>
      if Ascii.eqb c sep then EmptyString :: str_split sep r
      else match str_split sep r with
           | p :: ps => String c p :: ps
           | [] => [String c EmptyString]
           end
  end.

(** [reaction.id.split('_')[0]]; the list of pieces is never empty, so
    the index [0] always exists. *)
Definition core_id (reaction : Reaction.t) : string :=
  default EmptyString (str_split "_"%char (Reaction.id reaction) !! 0%nat).

(** [d[k].append(v)] on a [defaultdict(list)]: a dictionary keeps its keys
    in the order of their first insertion, so it is a list of bindings
    with distinct keys; a missing key is added at the end with [[v]]. *)
Fixpoint dd_append {V : Type} (k : string) (v : V) (d : list (string * list V))
    : list (string * list V) :=
  match d with
  | [] => [(k, [v])]
  | (k', vs) :: rest =>
      if String.eqb k' k then (k', vs ++ [v]) :: rest
      else (k', vs) :: dd_append k v rest
  end.

(** [sum] of a sequence of ints. *)
Definition py_sum (l : list Z) : Z := foldl Z.add 0 l.

(** The list [transport_rxns] that the loop of [print_transports] fills. *)
Definition transport_rxns (model : Model.t) : list Reaction.t :=
  foldl
    (fun acc rxn =>
       let compartments : gset string :=
         list_to_set (Metabolite.compartment <$> Reaction.metabolites rxn) in
       if (1 <? size compartments)%nat then acc ++ [rxn] else acc)
    [] (Model.reactions model).

(** [boundary_rxns] of [print_boundaries]. *)
Definition boundary_rxns (model : Model.t) : list Reaction.t :=
  filter (fun rxn => Reaction.boundary rxn = true) (Model.reactions model).

(** The dictionaries and the count of [print_shared_core_rxns]. *)
Definition duplicated_reactions (model : Model.t)
    : list (string * list Reaction.t) :=
  foldl (fun d reaction => dd_append (core_id reaction) reaction d)
    [] (Model.reactions model).

Definition duplicate_instances (model : Model.t)
    : list (string * list Reaction.t) :=
  filter (fun kv => (1 < length kv.2)%nat) (duplicated_reactions model).

Definition duplicated_count (model : Model.t) : Z :=
  py_sum ((fun kv => Z.of_nat (length kv.2) - 1) <$> duplicate_instances model).

Section Inspection.

(** [reaction.reaction], the equation that cobra writes for a reaction;
    [model.compartments.items()], the compartments with their names; and
    [repr] of a string.  All three come from outside the notebook. *)
Variable reaction_string : Reaction.t -> string.
Variable model_compartments : Model.t -> list (string * string).
Variable repr : string -> string.

(** The text of a list of strings inside an f-string. *)
Definition list_repr (l : list string) : string :=
  "[" +:+ String.concat ", " (repr <$> l) +:+ "]".

Definition print_rxns (model : Model.t) (n : Z) : list string :=
  let num_reactions := Z.of_nat (length (Model.reactions model)) in
  [ "Number of reactions in the model: " +:+ str_int num_reactions;
    nl +:+ "First n reactions in the model:" ]
  ++ ((fun reaction =>
         py_print [Reaction.id reaction; ": "; reaction_string reaction])
        <$> slice_to (Model.reactions model) n).

Definition print_mets (model : Model.t) (n : Z) : list string :=
  let num_metabolites := Z.of_nat (length (Model.metabolites model)) in
  [ nl +:+ "Number of metabolites in the model: " +:+ str_int num_metabolites;
    nl +:+ "First n metabolites in the model:" ]
  ++ ((fun metabolite =>
         py_print [Metabolite.id metabolite; ": ";
                   str_formula (Metabolite.formula metabolite)])
        <$> slice_to (Model.metabolites model) n).

Definition print_compartments (model : Model.t) : list string :=
  [ nl +:+ "Compartments in the model:" ]
  ++ ((fun item => item.1 +:+ ": " +:+ item.2) <$> model_compartments model).

Definition print_transports (model : Model.t) (n : Z) : list string :=
  [ nl +:+ "Number of transport reactions in the model: "
       +:+ str_int (Z.of_nat (length (transport_rxns model)));
    nl +:+ "First n transport reactions in the model:" ]
  ++ ((fun reaction =>
         py_print [Reaction.id reaction; ": "; reaction_string reaction])
        <$> slice_to (transport_rxns model) n).

Definition print_boundaries (model : Model.t) (n : Z) : list string :=
  [ nl +:+ "Number of boundary reactions in the model: "
       +:+ str_int (Z.of_nat (length (boundary_rxns model)));
    nl +:+ "First n boundary reactions in the model:" ]
  ++ ((fun rxn => py_print [Reaction.id rxn; ": "; reaction_string rxn])
        <$> slice_to (boundary_rxns model) n).

(** The last loop of [print_shared_core_rxns]: it leaves at the first
    item for which [i >= n]. *)
Fixpoint print_groups (items : list (string * list Reaction.t)) (i n : Z)
    : list string :=
  match items with
  | [] => []
  | (group_id, reactions) :: rest =>
      if n <=? i then []
      else (group_id +:+ ": " +:+ list_repr (Reaction.id <$> reactions))
             :: print_groups rest (i + 1) n
  end.

Definition print_shared_core_rxns (model : Model.t) (n : Z) : list string :=
  [ nl +:+ "Number of putatively duplicated reactions, i.e. sharing core ID (everything before the first underscore): "
       +:+ str_int (duplicated_count model);
    nl +:+ "First n putatively duplicated reactions:" ]
  ++ print_groups (duplicate_instances model) 0 n
  ++ [ nl ].

Definition summarize_model_info (model : Model.t) (n : Z) : list string :=
  print_rxns model n
  ++ print_mets model n
  ++ print_compartments model
  ++ print_transports model n
  ++ print_boundaries model n
  ++ print_shared_core_rxns model n.

End Inspection.

(** The distinct elements of a list, in the order of their first
    occurrence: the order in which a dictionary receives its keys. *)
Fixpoint distinct (l : list string) : list string :=
  match l with
  | [] => []
  | x :: l => x :: filter (fun y => y <> x) (distinct l)
  end.

(** The reactions of [l] whose identifier starts with the piece [k], in
    the order of [l], bound to [k]. *)
Definition group_of (l : list Reaction.t) (k : string)
    : string * list Reaction.t :=
  (k, filter (fun reaction => core_id reaction = k) l).

(** The number of reactions held by a dictionary of groups. *)
Definition held (d : list (string * list Reaction.t)) : Z :=
  py_sum ((fun kv => Z.of_nat (length kv.2)) <$> d).

(** The character [c] does not occur in [s]. *)
Fixpoint lacks (c : ascii) (s : string) : Prop :=
  match s with
  | EmptyString => True
  | String x r => x <> c /\ lacks c r
  end.

(** A model with the same reaction in three compartments, a second
    reaction in two, and one transport between compartments. *)
Definition shared_model : Model.t :=
  Model.Build
    [ Reaction.Build "MNXR1_c" [met_c] false;
      Reaction.Build "MNXR2_c" [met_c] false;
      Reaction.Build "MNXR1_e" [met_e] false;
      Reaction.Build "MNXR9" [met_c; met_e] false;
      Reaction.Build "MNXR1_m" [met_c] true;
      Reaction.Build "MNXR2_e" [met_e] false ]
    [ met_c; met_e ].

(** ** Writes *)

(** The disk after the writes [ws], made in this order. *)
Definition apply_writes (os : OS) (ws : list (string * DataFrame))
    (d : gmap string DataFrame) : gmap string DataFrame :=
  foldl (fun d write => <[file_of os write.1 := write.2]> d) d ws.

(** The world [w] after the writes [ws] and nothing else. *)
Definition after (os : OS) (w : World) (ws : list (string * DataFrame)) : World :=
  {| disk := apply_writes os ws (disk w); log := log w ++ ws |}.

(** The two writes of a run that returns. *)
Definition tables (out name : string) (model mapped_model : Model.t)
    : list (string * DataFrame) :=
  [ (rxn_path out name,
     rxn_columns (Reaction.id <$> Model.reactions model) mapped_model);
    (met_path out name,
     met_columns (Metabolite.id <$> Model.metabolites model) mapped_model) ].

(** The paths that a cell of calls with these names writes to, in the
    order of the writes. *)
Definition cell_paths (names : list string) : list string :=
  concat ((fun name => [ rxn_path output_mapping_path name;
                         met_path output_mapping_path name ]) <$> names).

(** ** The canonicalizer in the words of the specification *)

(** The recognised separators. *)
Definition separator (c : ascii) : Prop := c = "_"%char \/ c = "~"%char.

(** The prefix [MNX] occurs in [s] right after [pre]. *)
Definition occurs_at (pre s : string) : Prop :=
  exists post, s = pre +:+ "MNX" +:+ post.

(** ... and no occurrence starts further to the left. *)
Definition first_occurrence (pre s : string) : Prop :=
  occurs_at pre s /\
  forall pre', occurs_at pre' s -> (String.length pre <= String.length pre')%nat.

Fixpoint no_separator (s : string) : Prop :=
  match s with
  | EmptyString => True
  | String c r => ~ separator c /\ no_separator r
  end.

(** What follows the token: nothing, or a text that starts with a
    separator. *)
Definition stops (post : string) : Prop :=
  post = "" \/ exists c r, post = String c r /\ separator c.

(** "The substring beginning at the first occurrence of the prefix and
    extending through any number of non-separator characters; if the
    identifier contains no occurrence of the prefix, the identifier is
    returned verbatim." *)
Inductive canonicalize_spec (s : string) : string -> Prop :=
  | canonical_token (pre run post : string) :
      first_occurrence pre s ->
      s = pre +:+ "MNX" +:+ run +:+ post ->
      no_separator run ->
      stops post ->
      canonicalize_spec s ("MNX" +:+ run)
  | canonical_verbatim :
      (forall pre, ~ occurs_at pre s) ->
      canonicalize_spec s s.

(** * Properties *)

(** ** Strings *)

Lemma app_String (c : ascii) (s t : string) :
  String c s +:+ t = String c (s +:+ t).
Proof. reflexivity. Qed.

Lemma app_Empty (t : string) : "" +:+ t = t.
Proof. reflexivity. Qed.

Lemma app_inv_length (p1 p2 a b : string) :
  String.length p1 = String.length p2 ->
  p1 +:+ a = p2 +:+ b -> p1 = p2 /\ a = b.
Proof.
  revert p2. induction p1 as [|c p1 IH]; intros [|d p2] Hlen Heq;
    try discriminate.
  - auto.
  - rewrite !app_String in Heq. injection Heq as -> Heq.
    injection Hlen as Hlen. destruct (IH _ Hlen Heq) as [-> ->]. auto.
Qed.

(** ** The pattern *)

Lemma in_class_false (c : ascii) : Re.in_class c = false <-> separator c.
Proof.
  unfold Re.in_class, separator.
  rewrite negb_false_iff, orb_true_iff, !Ascii.eqb_eq. tauto.
Qed.

Lemma in_class_true (c : ascii) : Re.in_class c = true <-> ~ separator c.
Proof.
  rewrite <- in_class_false. destruct (Re.in_class c); split; congruence.
Qed.

Lemma literal_Some (lit s rest : string) :
  Re.literal lit s = Some rest <-> s = lit +:+ rest.
Proof.
  revert s. induction lit as [|a lit IH]; intros s; simpl.
  - rewrite app_Empty. split; congruence.
  - destruct s as [|b s]; rewrite app_String.
    + split; discriminate.
    + destruct (Ascii.eqb_spec a b) as [->|Hne].
      * rewrite IH. split; [intros ->; reflexivity | congruence].
      * split; [discriminate | congruence].
Qed.

Lemma match_here_Some (s m : string) :
  Re.match_here s = Some m <->
  exists rest, s = "MNX" +:+ rest /\ m = "MNX" +:+ Re.class_star rest.
Proof.
  unfold Re.match_here. destruct (Re.literal "MNX" s) as [rest|] eqn:Hl.
  - apply literal_Some in Hl. split.
    + intros [= <-]. eauto.
    + intros (rest' & Hs & ->). subst s.
      apply (inj (String.app "MNX")) in Hs. congruence.
  - split; [discriminate|]. intros (rest & Hs & _).
    apply literal_Some in Hs. congruence.
Qed.

Lemma match_here_None (s : string) :
  Re.match_here s = None <-> ~ occurs_at "" s.
Proof.
  unfold occurs_at. setoid_rewrite app_Empty. split.
  - intros Hn [post Hs].
    assert (Re.match_here s = Some ("MNX" +:+ Re.class_star post)) as Hm
      by (apply match_here_Some; eauto).
    congruence.
  - intros Hno. destruct (Re.match_here s) as [m|] eqn:Hm; [|reflexivity].
    apply match_here_Some in Hm as (rest & Hs & _). destruct Hno; eauto.
Qed.

Lemma class_star_split (s : string) :
  exists post, s = Re.class_star s +:+ post /\
               no_separator (Re.class_star s) /\ stops post.
Proof.
  induction s as [|c r (post & Hr & Hns & Hst)]; simpl.
  - exists "". unfold stops. auto.
  - destruct (Re.in_class c) eqn:Hc.
    + exists post. rewrite app_String, <- Hr. simpl.
      apply in_class_true in Hc. auto.
    + exists (String c r). apply in_class_false in Hc.
      unfold stops. simpl. rewrite app_Empty.
      split; [reflexivity|]. split; [exact I|]. right. eauto.
Qed.

Lemma class_star_app (run post : string) :
  no_separator run -> stops post -> Re.class_star (run +:+ post) = run.
Proof.
  intros Hns Hst. induction run as [|c run IH].
  - rewrite app_Empty. destruct Hst as [->|(c & r & -> & Hc)]; [reflexivity|].
    apply in_class_false in Hc. simpl. rewrite Hc. reflexivity.
  - destruct Hns as [Hc Hns]. apply in_class_true in Hc.
    rewrite app_String. simpl. rewrite Hc, IH by assumption. reflexivity.
Qed.

Lemma class_star_idem (s : string) :
  Re.class_star (Re.class_star s) = Re.class_star s.
Proof.
  induction s as [|c r IH]; simpl; [reflexivity|].
  destruct (Re.in_class c) eqn:Hc; simpl; [|reflexivity].
  rewrite Hc, IH. reflexivity.
Qed.

Lemma occurs_at_cons (c : ascii) (pre r : string) :
  occurs_at (String c pre) (String c r) <-> occurs_at pre r.
Proof.
  unfold occurs_at.
  split; intros [post H]; exists post; rewrite (app_String c pre) in *; congruence.
Qed.

Lemma search_None (s : string) :
  Re.search s = None <-> forall pre, ~ occurs_at pre s.
Proof.
  induction s as [|c r IH]; simpl.
  - split; [|reflexivity]. intros _ [|d pre] [post H]; discriminate.
  - destruct (Re.match_here (String c r)) as [m|] eqn:Hm.
    + split; [discriminate|]. intros Hno. exfalso. apply (Hno "").
      apply match_here_Some in Hm as (rest & Hs & _).
      exists rest. rewrite app_Empty. exact Hs.
    + apply match_here_None in Hm. rewrite IH. split.
      * intros Hno [|d pre] Hocc; [tauto|].
        destruct Hocc as [post H]. rewrite (app_String d pre) in H.
        injection H as <- H. apply (Hno pre). exists post. exact H.
      * intros Hno pre Hocc. apply (Hno (String c pre)).
        apply occurs_at_cons. exact Hocc.
Qed.

Lemma search_Some (s m : string) :
  Re.search s = Some m ->
  exists pre rest,
    s = pre +:+ "MNX" +:+ rest /\ first_occurrence pre s /\
    m = "MNX" +:+ Re.class_star rest.
Proof.
  induction s as [|c r IH]; simpl.
  - discriminate.
  - destruct (Re.match_here (String c r)) as [m'|] eqn:Hm.
    + intros [= ->]. apply match_here_Some in Hm as (rest & Hs & ->).
      exists "", rest. rewrite app_Empty. split; [exact Hs|]. split; [|reflexivity].
      split; [exists rest; rewrite app_Empty; exact Hs | simpl; lia].
    + intros Hs. destruct (IH Hs) as (pre & rest & Hr & [Hocc Hmin] & ->).
      apply match_here_None in Hm.
      exists (String c pre), rest. rewrite app_String, <- Hr.
      split; [reflexivity|]. split; [|reflexivity]. split.
      * apply occurs_at_cons. exact Hocc.
      * intros [|d pre'] Hocc'; [tauto|].
        assert (d = c) as ->.
        { destruct Hocc' as [post H]. rewrite (app_String d pre') in H. congruence. }
        apply occurs_at_cons in Hocc'. specialize (Hmin _ Hocc'). simpl. lia.
Qed.

(** The first match wins, also when it is not at the start and another
    token follows. *)
Example extract_core_id_inner : extract_core_id "xx_MNXM5~MNXM6" = "MNXM5".
Proof. reflexivity. Qed.

(** A bare prefix is a match: the group is optional. *)
Example extract_core_id_bare : extract_core_id "a_MNX_b" = "MNX".
Proof. reflexivity. Qed.

Lemma search_here (s m : string) :
  Re.match_here s = Some m -> Re.search s = Some m.
Proof. intros Hm. destruct s; cbn [Re.search]; rewrite Hm; reflexivity. Qed.

Lemma extract_core_id_token (s : string) :
  Re.search s = None \/
  exists rest, extract_core_id s = "MNX" +:+ Re.class_star rest.
Proof.
  unfold extract_core_id. destruct (Re.search s) as [m|] eqn:Hs; [|auto].
  apply search_Some in Hs as (_ & rest & _ & _ & ->). eauto.
Qed.

(** ** The canonicalizer *)

(** C2: [extract_core_id] returns exactly what the specification words:
    the text from the first occurrence of [MNX] through the following
    characters up to the first [~] or [_], and the identifier itself
    when [MNX] does not occur; the three sample identifiers and the
    empty string are mapped as listed. *)
Theorem extract_core_id_canonical :
  (forall s r : string, canonicalize_spec s r <-> extract_core_id s = r) /\
  extract_core_id "MNXR12345_c" = "MNXR12345" /\
  extract_core_id "MNXR999~extra" = "MNXR999" /\
  extract_core_id "rxn001" = "rxn001" /\
  extract_core_id "" = "".
Proof.
  split; [|repeat split; reflexivity].
  intros s r. unfold extract_core_id. split.
  - intros [pre run post [Hocc Hmin] Hs Hns Hst | Hno].
    + destruct (Re.search s) as [m|] eqn:Hsearch.
      * apply search_Some in Hsearch as (pre0 & rest0 & Hs0 & [Hocc0 Hmin0] & ->).
        assert (String.length pre = String.length pre0) as Hlen.
        { apply Nat.le_antisymm; auto. }
        rewrite Hs0 in Hs. symmetry in Hs.
        apply app_inv_length in Hs as [_ Hs]; [|exact Hlen].
        apply (inj (String.app "MNX")) in Hs. subst rest0.
        rewrite class_star_app by assumption. reflexivity.
      * exfalso. exact (proj1 (search_None s) Hsearch pre Hocc).
    + rewrite (proj2 (search_None s) Hno). reflexivity.
  - intros <-. destruct (Re.search s) as [m|] eqn:Hsearch.
    + apply search_Some in Hsearch as (pre & rest & Hs & Hfirst & ->).
      destruct (class_star_split rest) as (post & Hrest & Hns & Hst).
      apply (canonical_token s pre (Re.class_star rest) post); try assumption.
      rewrite <- Hrest. exact Hs.
    + apply canonical_verbatim. exact (proj1 (search_None s) Hsearch).
Qed.

(** C4: the canonicalizer is idempotent. *)
Theorem extract_core_id_idempotent (s : string) :
  extract_core_id (extract_core_id s) = extract_core_id s.
Proof.
  destruct (extract_core_id_token s) as [Hnone | [rest Hrest]].
  - unfold extract_core_id at 2 3. rewrite Hnone.
    unfold extract_core_id. rewrite Hnone. reflexivity.
  - rewrite Hrest. unfold extract_core_id.
    rewrite (search_here _ ("MNX" +:+ Re.class_star (Re.class_star rest))).
    + rewrite class_star_idem. reflexivity.
    + apply match_here_Some. eauto.
Qed.

(** ** The transport classifier *)

Lemma is_transport_cases (reaction : Reaction.t) :
  is_transport reaction =
    if (1 <? size (touched_compartments reaction))%nat then 1
    else if Reaction.boundary reaction then 1 else 0.
Proof. reflexivity. Qed.

Lemma is_transport_range (reaction : Reaction.t) :
  is_transport reaction = 1 \/ is_transport reaction = 0.
Proof.
  rewrite is_transport_cases.
  destruct (1 <? _)%nat; [auto|]. destruct (Reaction.boundary _); auto.
Qed.

Lemma is_transport_1 (reaction : Reaction.t) :
  is_transport reaction = 1 <->
  (1 < size (touched_compartments reaction))%nat \/
  Reaction.boundary reaction = true.
Proof.
  rewrite is_transport_cases.
  destruct (1 <? _)%nat eqn:Hsize.
  - apply Nat.ltb_lt in Hsize. tauto.
  - apply Nat.ltb_ge in Hsize. destruct (Reaction.boundary _).
    + tauto.
    + split; [discriminate|]. intros [H|H]; [lia|discriminate].
Qed.

(** C3: the classifier answers [1] exactly when the metabolites touch
    more than one compartment or the boundary flag is set, and [0]
    otherwise; so two compartments give transport whatever the flag,
    one compartment with the flag gives transport, and one compartment
    without the flag gives non-transport. *)
Theorem is_transport_spec (reaction : Reaction.t) :
  (is_transport reaction = 1 \/ is_transport reaction = 0) /\
  (is_transport reaction = 1 <->
     (1 < size (touched_compartments reaction))%nat \/
     Reaction.boundary reaction = true) /\
  (size (touched_compartments reaction) = 2%nat -> is_transport reaction = 1) /\
  (size (touched_compartments reaction) = 1%nat ->
     Reaction.boundary reaction = true -> is_transport reaction = 1) /\
  (size (touched_compartments reaction) = 1%nat ->
     Reaction.boundary reaction = false -> is_transport reaction = 0).
Proof.
  split; [apply is_transport_range|]. split; [apply is_transport_1|].
  repeat split.
  - intros H. apply is_transport_1. lia.
  - intros _ H. apply is_transport_1. auto.
  - intros Hsize Hb. destruct (is_transport_range reaction) as [H1|H0]; [|exact H0].
    apply is_transport_1 in H1 as [H|H]; [lia|congruence].
Qed.

(** C10: with no metabolite, hence no compartment touched, the boundary
    flag alone decides. *)
Theorem is_transport_no_metabolite (reaction : Reaction.t) :
  Reaction.metabolites reaction = [] ->
  touched_compartments reaction = ∅ /\
  (is_transport reaction = 1 <-> Reaction.boundary reaction = true) /\
  (is_transport reaction = 0 <-> Reaction.boundary reaction = false).
Proof.
  intros Hmets.
  assert (touched_compartments reaction = ∅) as Hempty.
  { unfold touched_compartments. rewrite Hmets. reflexivity. }
  split; [exact Hempty|].
  rewrite is_transport_cases, Hempty, size_empty. simpl.
  destruct (Reaction.boundary reaction); split; split; congruence.
Qed.

Lemma is_transport_no_metabolite_witness :
  let reaction := Reaction.Build "EX_MNXM5" [] true in
  Reaction.metabolites reaction = [] /\ is_transport reaction = 1.
Proof.
  intros reaction. split; [reflexivity|].
  apply (is_transport_no_metabolite reaction); reflexivity.
Defined.

(** ** Frames and rows *)

Lemma pd_DataFrame_rxn (origs : list string) (mapped_model : Model.t) :
  pd_DataFrame (rxn_columns origs mapped_model) =
    if decide (length origs = length (Model.reactions mapped_model))
    then inr (rxn_columns origs mapped_model)
    else inl ValueError.
Proof.
  unfold pd_DataFrame, rxn_columns, metanetx_rxn_ids, transport_rxn_class,
    core_metanetx_rxn_ids.
  cbn [forallb snd]. rewrite !length_fmap.
  destruct (decide _) as [->|Hne].
  - rewrite Nat.eqb_refl. reflexivity.
  - destruct (Nat.eqb_spec (length (Model.reactions mapped_model)) (length origs));
      [congruence | reflexivity].
Qed.

Lemma pd_DataFrame_met (origs : list string) (mapped_model : Model.t) :
  pd_DataFrame (met_columns origs mapped_model) =
    if decide (length origs = length (Model.metabolites mapped_model))
    then inr (met_columns origs mapped_model)
    else inl ValueError.
Proof.
  unfold pd_DataFrame, met_columns, metanetx_met_ids, core_metanetx_met_ids.
  cbn [forallb snd]. rewrite !length_fmap.
  destruct (decide _) as [->|Hne].
  - rewrite Nat.eqb_refl. reflexivity.
  - destruct (Nat.eqb_spec (length (Model.metabolites mapped_model)) (length origs));
      [congruence | reflexivity].
Qed.

Lemma row_rxn_columns (origs : list string) (mapped_model : Model.t) (i : nat) :
  row i (rxn_columns origs mapped_model) =
    match origs !! i, Model.reactions mapped_model !! i with
    | Some o, Some rxn =>
        Some [Str o; Str (Reaction.id rxn); Int (is_transport rxn);
              Str (final_rxn_id rxn)]
    | _, _ => None
    end.
Proof.
  unfold row, rxn_columns, metanetx_rxn_ids, transport_rxn_class,
    core_metanetx_rxn_ids.
  cbn. rewrite !list_lookup_fmap.
  destruct (origs !! i); [|reflexivity].
  destruct (Model.reactions mapped_model !! i); reflexivity.
Qed.

Lemma row_met_columns (origs : list string) (mapped_model : Model.t) (i : nat) :
  row i (met_columns origs mapped_model) =
    match origs !! i, Model.metabolites mapped_model !! i with
    | Some o, Some met =>
        Some [Str o; Str (Metabolite.id met);
              Str (extract_core_id (Metabolite.id met))]
    | _, _ => None
    end.
Proof.
  unfold row, met_columns, metanetx_met_ids, core_metanetx_met_ids.
  cbn. rewrite !list_lookup_fmap.
  destruct (origs !! i); [|reflexivity].
  destruct (Model.metabolites mapped_model !! i); reflexivity.
Qed.

(** ** One run of [export_mergem_mapping] *)

Lemma path_rxn_met (out name : string) : rxn_path out name <> met_path out name.
Proof.
  unfold rxn_path, met_path. intros H.
  apply (inj (String.app out)), (inj (String.app "/")),
    (inj (String.app name)) in H.
  discriminate.
Qed.

Lemma after_after (os : OS) (w : World) (ws1 ws2 : list (string * DataFrame)) :
  after os (after os w ws1) ws2 = after os w (ws1 ++ ws2).
Proof.
  unfold after, apply_writes. cbn [disk log].
  rewrite foldl_app, <- app_assoc. reflexivity.
Qed.

Lemma to_csv_run (os : OS) (df : DataFrame) (path : string) (w : World) :
  to_csv os df path w =
    if can_write os path then (inr tt, after os w [(path, df)])
    else (inl OSError, w).
Proof. reflexivity. Qed.

(** The outcome of a run, case by case. *)
Lemma export_mergem_mapping_run
    (os : OS) (translate : Model.t -> exn + Model.t) (model : Model.t)
    (name out : string) (w : World) :
  export_mergem_mapping os translate model name out w =
    match translate model with
    | inl e => (inl e, w)
    | inr mapped_model =>
        if decide (length (Model.reactions model) =
                   length (Model.reactions mapped_model)) then
          if decide (length (Model.metabolites model) =
                     length (Model.metabolites mapped_model)) then
            if can_write os (rxn_path out name) then
              if can_write os (met_path out name) then
                (inr tt, after os w (tables out name model mapped_model))
              else
                (inl OSError,
                 after os w
                   [(rxn_path out name,
                     rxn_columns (Reaction.id <$> Model.reactions model)
                       mapped_model)])
            else (inl OSError, w)
          else (inl ValueError, w)
        else (inl ValueError, w)
    end.
Proof.
  unfold export_mergem_mapping, mbind, M_bind, lift.
  destruct (translate model) as [e|mapped_model]; [reflexivity|].
  rewrite pd_DataFrame_rxn, pd_DataFrame_met, !length_fmap.
  repeat case_decide; try reflexivity.
  rewrite to_csv_run. destruct (can_write os (rxn_path out name)); [|reflexivity].
  rewrite to_csv_run. destruct (can_write os (met_path out name)); [|reflexivity].
  rewrite after_after. reflexivity.
Qed.

(** A run that returns has made its two writes, and nothing else. *)
Lemma export_mergem_mapping_returns
    (os : OS) (translate : Model.t -> exn + Model.t)
    (model mapped_model : Model.t) (name out : string) (w : World) :
  translate model = inr mapped_model ->
  (export_mergem_mapping os translate model name out w).1 = inr tt ->
  length (Model.reactions model) = length (Model.reactions mapped_model) /\
  length (Model.metabolites model) = length (Model.metabolites mapped_model) /\
  (export_mergem_mapping os translate model name out w).2 =
    after os w (tables out name model mapped_model).
Proof.
  intros Htr. rewrite export_mergem_mapping_run, Htr.
  repeat case_decide; try discriminate.
  destruct (can_write os (rxn_path out name)); [|discriminate].
  destruct (can_write os (met_path out name)); [|discriminate].
  auto.
Qed.

Lemma export_mergem_mapping_written
    (os : OS) (translate : Model.t -> exn + Model.t) (model : Model.t)
    (name out : string) (w : World) :
  (export_mergem_mapping os translate model name out w).1 = inr tt ->
  exists mapped_model,
    translate model = inr mapped_model /\
    (export_mergem_mapping os translate model name out w).2 =
      after os w (tables out name model mapped_model).
Proof.
  intros Hok. destruct (translate model) as [e|mapped_model] eqn:Htr.
  - rewrite export_mergem_mapping_run, Htr in Hok. discriminate Hok.
  - exists mapped_model. split; [reflexivity|].
    apply (export_mergem_mapping_returns os translate model mapped_model);
      assumption.
Qed.

(** A run that raises has written nothing, unless the exception comes
    from the second write: then the reaction table is written. *)
Lemma export_mergem_mapping_raised
    (os : OS) (translate : Model.t -> exn + Model.t) (model : Model.t)
    (name out : string) (w : World) (e : exn) :
  (export_mergem_mapping os translate model name out w).1 = inl e ->
  (export_mergem_mapping os translate model name out w).2 = w \/
  (e = OSError /\
   exists mapped_model,
     translate model = inr mapped_model /\
     (export_mergem_mapping os translate model name out w).2 =
       after os w
         [(rxn_path out name,
           rxn_columns (Reaction.id <$> Model.reactions model) mapped_model)]).
Proof.
  rewrite export_mergem_mapping_run.
  destruct (translate model) as [e'|mapped_model]; [auto|].
  repeat case_decide; auto.
  destruct (can_write os (rxn_path out name)); [|auto].
  destruct (can_write os (met_path out name)); [discriminate|].
  intros [= <-]. right. eauto.
Qed.

Lemma rxn_row_of (origs : list string) (mapped_model : Model.t) (i : nat)
    (rxn : Reaction.t) :
  length origs = length (Model.reactions mapped_model) ->
  Model.reactions mapped_model !! i = Some rxn ->
  exists o, origs !! i = Some o /\
    row i (rxn_columns origs mapped_model) =
      Some [Str o; Str (Reaction.id rxn); Int (is_transport rxn);
            Str (final_rxn_id rxn)].
Proof.
  intros Hlen Hrxn. rewrite row_rxn_columns, Hrxn.
  destruct (lookup_lt_is_Some_2 origs i) as [o Ho].
  { rewrite Hlen. eapply lookup_lt_Some, Hrxn. }
  rewrite Ho. eauto.
Qed.

Lemma met_row_of (origs : list string) (mapped_model : Model.t) (i : nat)
    (met : Metabolite.t) :
  length origs = length (Model.metabolites mapped_model) ->
  Model.metabolites mapped_model !! i = Some met ->
  exists o, origs !! i = Some o /\
    row i (met_columns origs mapped_model) =
      Some [Str o; Str (Metabolite.id met);
            Str (extract_core_id (Metabolite.id met))].
Proof.
  intros Hlen Hmet. rewrite row_met_columns, Hmet.
  destruct (lookup_lt_is_Some_2 origs i) as [o Ho].
  { rewrite Hlen. eapply lookup_lt_Some, Hmet. }
  rewrite Ho. eauto.
Qed.

(** The frames of two equal lists of writes after the same world. *)
Lemma after_inj (os : OS) (w : World) (ws1 ws2 : list (string * DataFrame)) :
  after os w ws1 = after os w ws2 -> ws1 = ws2.
Proof.
  intros H. apply (f_equal log) in H. cbn [after log] in H.
  exact (app_inv_head _ _ _ H).
Qed.

(** ** Final identifiers *)

Lemma final_rxn_id_transport (rxn : Reaction.t) :
  is_transport rxn = 1 -> final_rxn_id rxn = "Transport removed".
Proof. unfold final_rxn_id. intros ->. reflexivity. Qed.

Lemma final_rxn_id_local (rxn : Reaction.t) :
  is_transport rxn = 0 -> final_rxn_id rxn = extract_core_id (Reaction.id rxn).
Proof. unfold final_rxn_id. intros ->. reflexivity. Qed.


Lemma extract_core_id_sentinel (s : string) :
  extract_core_id s = "Transport removed" -> s = "Transport removed".
Proof.
  destruct (extract_core_id_token s) as [Hnone | [rest ->]].
  - unfold extract_core_id. rewrite Hnone. auto.
  - discriminate.
Qed.

(** C1: in the reaction table that a run writes, the row of each reaction
    of the translated model ends with the sentinel when the reaction is
    classified transport, and with the canonicalized translated
    identifier when it is not; non-transport reactions named [MNXR1_c]
    and [MNXR1_e] both end with [MNXR1]. *)
Theorem reaction_final_id
    (os : OS) (translate : Model.t -> exn + Model.t)
    (model mapped_model : Model.t) (name out : string) (w : World) :
  translate model = inr mapped_model ->
  (export_mergem_mapping os translate model name out w).1 = inr tt ->
  exists rxn_df met_df,
    (export_mergem_mapping os translate model name out w).2 =
      after os w [(rxn_path out name, rxn_df); (met_path out name, met_df)] /\
    forall (i : nat) (rxn : Reaction.t),
      Model.reactions mapped_model !! i = Some rxn ->
      exists original final,
        row i rxn_df =
          Some [Str original; Str (Reaction.id rxn); Int (is_transport rxn);
                Str final] /\
        (is_transport rxn = 1 -> final = "Transport removed") /\
        (is_transport rxn = 0 -> final = extract_core_id (Reaction.id rxn)) /\
        (is_transport rxn = 0 ->
         Reaction.id rxn = "MNXR1_c" \/ Reaction.id rxn = "MNXR1_e" ->
         final = "MNXR1").
Proof.
  intros Htr Hok.
  destruct (export_mergem_mapping_returns os _ _ _ name out w Htr Hok)
    as (Hlen & _ & Hrun).
  do 2 eexists. split; [exact Hrun|].
  intros i rxn Hi.
  destruct (rxn_row_of (Reaction.id <$> Model.reactions model) mapped_model i rxn)
    as (o & _ & Hrow); [by rewrite length_fmap | exact Hi |].
  exists o, (final_rxn_id rxn). split; [exact Hrow|].
  split; [apply final_rxn_id_transport|].
  split; [apply final_rxn_id_local|].
  intros Hlocal Hid. rewrite final_rxn_id_local by exact Hlocal.
  destruct Hid as [-> | ->]; reflexivity.
Qed.

Lemma reaction_final_id_witness :
  exists rxn_df met_df,
    (export_mergem_mapping plain_os translate_id test_model
       "au_CHO" "mapping_results" empty_world).2 =
      after plain_os empty_world
        [(rxn_path "mapping_results" "au_CHO", rxn_df);
         (met_path "mapping_results" "au_CHO", met_df)] /\
    row 0 rxn_df = Some [Str "MNXR1_c"; Str "MNXR1_c"; Int 0; Str "MNXR1"] /\
    row 1 rxn_df = Some [Str "MNXR1_e"; Str "MNXR1_e"; Int 0; Str "MNXR1"] /\
    row 2 rxn_df = Some [Str "MNXR2"; Str "MNXR2"; Int 1; Str "Transport removed"] /\
    row 3 rxn_df = Some [Str "MNXR3"; Str "MNXR3"; Int 1; Str "Transport removed"].
Proof.
  destruct (reaction_final_id plain_os translate_id test_model test_model
              "au_CHO" "mapping_results" empty_world)
    as (rxn_df & met_df & Hrun & _).
  - reflexivity.
  - vm_compute. reflexivity.
  - exists rxn_df, met_df. split; [exact Hrun|].
    assert ([(rxn_path "mapping_results" "au_CHO", rxn_df);
             (met_path "mapping_results" "au_CHO", met_df)] =
            tables "mapping_results" "au_CHO" test_model test_model) as [= -> _].
    { apply (after_inj plain_os empty_world). rewrite <- Hrun.
      vm_compute. reflexivity. }
    repeat split; reflexivity.
Defined.

(** C5: in the metabolite table that a run writes, the row of each
    metabolite of the translated model ends with the canonicalized
    translated identifier, whatever the reactions are; the sentinel is
    never put in its place, and [MNXM5_c] and [MNXM5_e] both end with
    [MNXM5]. *)
Theorem metabolite_final_id
    (os : OS) (translate : Model.t -> exn + Model.t)
    (model mapped_model : Model.t) (name out : string) (w : World) :
  translate model = inr mapped_model ->
  (export_mergem_mapping os translate model name out w).1 = inr tt ->
  exists rxn_df met_df,
    (export_mergem_mapping os translate model name out w).2 =
      after os w [(rxn_path out name, rxn_df); (met_path out name, met_df)] /\
    forall (i : nat) (met : Metabolite.t),
      Model.metabolites mapped_model !! i = Some met ->
      exists original final,
        row i met_df = Some [Str original; Str (Metabolite.id met); Str final] /\
        final = extract_core_id (Metabolite.id met) /\
        (final = "Transport removed" -> Metabolite.id met = "Transport removed") /\
        (Metabolite.id met = "MNXM5_c" \/ Metabolite.id met = "MNXM5_e" ->
         final = "MNXM5").
Proof.
  intros Htr Hok.
  destruct (export_mergem_mapping_returns os _ _ _ name out w Htr Hok)
    as (_ & Hlen & Hrun).
  do 2 eexists. split; [exact Hrun|].
  intros i met Hi.
  destruct (met_row_of (Metabolite.id <$> Model.metabolites model) mapped_model i met)
    as (o & _ & Hrow); [by rewrite length_fmap | exact Hi |].
  exists o, (extract_core_id (Metabolite.id met)). split; [exact Hrow|].
  split; [reflexivity|]. split; [apply extract_core_id_sentinel|].
  intros [-> | ->]; reflexivity.
Qed.

Lemma metabolite_final_id_witness :
  exists rxn_df met_df,
    (export_mergem_mapping plain_os translate_id test_model
       "au_CHO" "mapping_results" empty_world).2 =
      after plain_os empty_world
        [(rxn_path "mapping_results" "au_CHO", rxn_df);
         (met_path "mapping_results" "au_CHO", met_df)] /\
    row 0 met_df = Some [Str "MNXM5_c"; Str "MNXM5_c"; Str "MNXM5"] /\
    row 1 met_df = Some [Str "MNXM5_e"; Str "MNXM5_e"; Str "MNXM5"].
Proof.
  destruct (metabolite_final_id plain_os translate_id test_model test_model
              "au_CHO" "mapping_results" empty_world)
    as (rxn_df & met_df & Hrun & _).
  - reflexivity.
  - vm_compute. reflexivity.
  - exists rxn_df, met_df. split; [exact Hrun|].
    assert ([(rxn_path "mapping_results" "au_CHO", rxn_df);
             (met_path "mapping_results" "au_CHO", met_df)] =
            tables "mapping_results" "au_CHO" test_model test_model) as [= _ ->].
    { apply (after_inj plain_os empty_world). rewrite <- Hrun.
      vm_compute. reflexivity. }
    repeat split; reflexivity.
Defined.




(** ** Record lists *)

Lemma nrows_rxn_columns (origs : list string) (mapped_model : Model.t) :
  nrows (rxn_columns origs mapped_model) = length origs.
Proof. unfold nrows, rxn_columns. apply length_fmap. Qed.

Lemma nrows_met_columns (origs : list string) (mapped_model : Model.t) :
  nrows (met_columns origs mapped_model) = length origs.
Proof. unfold nrows, met_columns. apply length_fmap. Qed.

(** A run on a translated model with other counts than the original
    raises [ValueError] before anything is written. *)
Lemma export_mergem_mapping_mismatch
    (os : OS) (translate : Model.t -> exn + Model.t)
    (model mapped_model : Model.t) (name out : string) (w : World) :
  translate model = inr mapped_model ->
  length (Model.reactions model) <> length (Model.reactions mapped_model) \/
  length (Model.metabolites model) <> length (Model.metabolites mapped_model) ->
  export_mergem_mapping os translate model name out w = (inl ValueError, w).
Proof.
  intros Htr Hne. rewrite export_mergem_mapping_run, Htr.
  repeat case_decide; try reflexivity. tauto.
Qed.

(** C8: in the tables that a run writes, the reaction table has one row
    per reaction of the translated model and the metabolite table one row
    per metabolite, and the [i]-th row holds the [i]-th original
    identifier and the [i]-th translated entity. *)
Theorem record_lists
    (os : OS) (translate : Model.t -> exn + Model.t)
    (model mapped_model : Model.t) (name out : string) (w : World) :
  translate model = inr mapped_model ->
  (export_mergem_mapping os translate model name out w).1 = inr tt ->
  exists rxn_df met_df,
    (export_mergem_mapping os translate model name out w).2 =
      after os w [(rxn_path out name, rxn_df); (met_path out name, met_df)] /\
    nrows rxn_df = length (Model.reactions mapped_model) /\
    nrows met_df = length (Model.metabolites mapped_model) /\
    (forall i : nat, (i < nrows rxn_df)%nat <-> is_Some (row i rxn_df)) /\
    (forall i : nat, (i < nrows met_df)%nat <-> is_Some (row i met_df)) /\
    (forall (i : nat) (rxn : Reaction.t),
       Model.reactions mapped_model !! i = Some rxn ->
       exists original,
         Model.reactions model !! i = Some original /\
         row i rxn_df =
           Some [Str (Reaction.id original); Str (Reaction.id rxn);
                 Int (is_transport rxn); Str (final_rxn_id rxn)]) /\
    (forall (i : nat) (met : Metabolite.t),
       Model.metabolites mapped_model !! i = Some met ->
       exists original,
         Model.metabolites model !! i = Some original /\
         row i met_df =
           Some [Str (Metabolite.id original); Str (Metabolite.id met);
                 Str (extract_core_id (Metabolite.id met))]).
Proof.
  intros Htr Hok.
  destruct (export_mergem_mapping_returns os _ _ _ name out w Htr Hok)
    as (Hr & Hm & Hrun).
  do 2 eexists. split; [exact Hrun|].
  rewrite nrows_rxn_columns, nrows_met_columns, !length_fmap.
  split; [exact Hr|]. split; [exact Hm|]. split; [|split; [|split]].
  - intros i. rewrite row_rxn_columns, list_lookup_fmap.
    destruct (Model.reactions model !! i) as [o|] eqn:Ho; simpl.
    + destruct (lookup_lt_is_Some_2 (Model.reactions mapped_model) i) as [r ->].
      { rewrite <- Hr. eapply lookup_lt_Some, Ho. }
      split; [eauto | intros _; eapply lookup_lt_Some, Ho].
    + apply lookup_ge_None in Ho. split; [lia | intros [? [=]]].
  - intros i. rewrite row_met_columns, list_lookup_fmap.
    destruct (Model.metabolites model !! i) as [o|] eqn:Ho; simpl.
    + destruct (lookup_lt_is_Some_2 (Model.metabolites mapped_model) i) as [r ->].
      { rewrite <- Hm. eapply lookup_lt_Some, Ho. }
      split; [eauto | intros _; eapply lookup_lt_Some, Ho].
    + apply lookup_ge_None in Ho. split; [lia | intros [? [=]]].
  - intros i rxn Hi.
    destruct (lookup_lt_is_Some_2 (Model.reactions model) i) as [o Ho].
    { rewrite Hr. eapply lookup_lt_Some, Hi. }
    exists o. split; [exact Ho|].
    rewrite row_rxn_columns, list_lookup_fmap, Ho, Hi. reflexivity.
  - intros i met Hi.
    destruct (lookup_lt_is_Some_2 (Model.metabolites model) i) as [o Ho].
    { rewrite Hm. eapply lookup_lt_Some, Hi. }
    exists o. split; [exact Ho|].
    rewrite row_met_columns, list_lookup_fmap, Ho, Hi. reflexivity.
Qed.

Lemma record_lists_witness :
  exists rxn_df met_df,
    (export_mergem_mapping plain_os translate_id test_model
       "au_CHO" "mapping_results" empty_world).2 =
      after plain_os empty_world
        [(rxn_path "mapping_results" "au_CHO", rxn_df);
         (met_path "mapping_results" "au_CHO", met_df)] /\
    nrows rxn_df = 4%nat /\ nrows met_df = 2%nat.
Proof.
  destruct (record_lists plain_os translate_id test_model test_model
              "au_CHO" "mapping_results" empty_world)
    as (rxn_df & met_df & Hrun & Hnr & Hnm & _).
  - reflexivity.
  - vm_compute. reflexivity.
  - exists rxn_df, met_df. auto.
Defined.

(** ** Failures *)

(** C9: when the translator raises, the run raises the same exception
    and leaves the world as it was: neither table is written. *)
Theorem translation_failure_no_output
    (os : OS) (translate : Model.t -> exn + Model.t) (model : Model.t)
    (name out : string) (w : World) (e : exn) :
  translate model = inl e ->
  export_mergem_mapping os translate model name out w = (inl e, w).
Proof. intros Htr. rewrite export_mergem_mapping_run, Htr. reflexivity. Qed.

Lemma translation_failure_no_output_witness :
  export_mergem_mapping plain_os translate_nonempty empty_model
    "au_CHO" "mapping_results" empty_world
    = (inl (Raised "TranslationError"), empty_world).
Proof.
  apply (translation_failure_no_output plain_os translate_nonempty empty_model).
  reflexivity.
Defined.

Lemma export_AuReMe_run
    (os : OS) (translate : Model.t -> exn + Model.t) (m1 m2 m3 : Model.t)
    (w : World) :
  export_AuReMe os translate m1 m2 m3 w =
    match export_mergem_mapping os translate m1 "au_CHO" output_mapping_path w with
    | (inl e, w1) => (inl e, w1)
    | (inr _, w1) =>
        match export_mergem_mapping os translate m2 "au_A_aegypti"
                output_mapping_path w1 with
        | (inl e, w2) => (inl e, w2)
        | (inr _, w2) =>
            export_mergem_mapping os translate m3 "au_E_siliculosus"
              output_mapping_path w2
        end
    end.
Proof. reflexivity. Qed.

(** The control flow of the cell: it raises with the first run that
    raises, in the state that this run has left. *)
Lemma export_AuReMe_control
    (os : OS) (translate : Model.t -> exn + Model.t) (m1 m2 m3 : Model.t)
    (w : World) :
  let run1 := export_mergem_mapping os translate m1 "au_CHO"
                output_mapping_path w in
  let run2 := export_mergem_mapping os translate m2 "au_A_aegypti"
                output_mapping_path run1.2 in
  let run3 := export_mergem_mapping os translate m3 "au_E_siliculosus"
                output_mapping_path run2.2 in
  (forall e, run1.1 = inl e ->
     export_AuReMe os translate m1 m2 m3 w = (inl e, run1.2)) /\
  (forall e, run1.1 = inr tt -> run2.1 = inl e ->
     export_AuReMe os translate m1 m2 m3 w = (inl e, run2.2)) /\
  (forall e, run1.1 = inr tt -> run2.1 = inr tt -> run3.1 = inl e ->
     export_AuReMe os translate m1 m2 m3 w = (inl e, run3.2)) /\
  (run1.1 = inr tt -> run2.1 = inr tt -> run3.1 = inr tt ->
     export_AuReMe os translate m1 m2 m3 w = (inr tt, run3.2)).
Proof.
  intros run1 run2 run3. rewrite export_AuReMe_run. fold run1.
  destruct run1 as [[e1|[]] w1] eqn:E1; cbn [fst snd] in *.
  - repeat split; try discriminate. intros e [= <-]. reflexivity.
  - subst run2. destruct (export_mergem_mapping os translate m2 _ _ w1)
      as [[e2|[]] w2] eqn:E2; cbn [fst snd] in *.
    + repeat split; try discriminate. intros e _ [= <-]. reflexivity.
    + subst run3. destruct (export_mergem_mapping os translate m3 _ _ w2)
        as [[e3|[]] w3] eqn:E3; cbn [fst snd] in *.
      * repeat split; try discriminate. intros e _ _ [= <-]. reflexivity.
      * repeat split; discriminate.
Qed.

(** C6, as the code has it: the cell stops at the first model whose run
    raises, and ends in the state that this run has left; the models
    after it are not run.  A run that returns has written its two tables
    in full, the reaction table and then the metabolite table of the
    model, and nothing else.  A run that raises has written nothing,
    unless the exception is the [OSError] of the second write: then it
    has written the reaction table of the model in full, and nothing
    else.  So the models before the failing one have their two tables in
    full, and the models after it have none. *)
Theorem export_AuReMe_stops_at_failure
    (os : OS) (translate : Model.t -> exn + Model.t) (m1 m2 m3 : Model.t)
    (w : World) :
  let run1 := export_mergem_mapping os translate m1 "au_CHO"
                output_mapping_path w in
  let run2 := export_mergem_mapping os translate m2 "au_A_aegypti"
                output_mapping_path run1.2 in
  let run3 := export_mergem_mapping os translate m3 "au_E_siliculosus"
                output_mapping_path run2.2 in
  (forall e, run1.1 = inl e ->
     export_AuReMe os translate m1 m2 m3 w = (inl e, run1.2)) /\
  (forall e, run1.1 = inr tt -> run2.1 = inl e ->
     export_AuReMe os translate m1 m2 m3 w = (inl e, run2.2)) /\
  (forall e, run1.1 = inr tt -> run2.1 = inr tt -> run3.1 = inl e ->
     export_AuReMe os translate m1 m2 m3 w = (inl e, run3.2)) /\
  (run1.1 = inr tt -> run2.1 = inr tt -> run3.1 = inr tt ->
     export_AuReMe os translate m1 m2 m3 w = (inr tt, run3.2)) /\
  (forall (m : Model.t) (name : string) (w0 : World),
     let run := export_mergem_mapping os translate m name output_mapping_path w0 in
     (run.1 = inr tt ->
        exists mapped_model,
          translate m = inr mapped_model /\
          run.2 = after os w0 (tables output_mapping_path name m mapped_model)) /\
     (forall e, run.1 = inl e ->
        run.2 = w0 \/
        (e = OSError /\
         exists mapped_model,
           translate m = inr mapped_model /\
           run.2 =
             after os w0
               [(rxn_path output_mapping_path name,
                 rxn_columns (Reaction.id <$> Model.reactions m) mapped_model)]))).
Proof.
  intros run1 run2 run3.
  destruct (export_AuReMe_control os translate m1 m2 m3 w) as (Hc1 & Hc2 & Hc3 & Hc4).
  split; [exact Hc1|]. split; [exact Hc2|]. split; [exact Hc3|].
  split; [exact Hc4|].
  intros m name w0 run. split.
  - apply export_mergem_mapping_written.
  - intros e. apply export_mergem_mapping_raised.
Qed.

(** C6 as stated fails: when the translator rejects the first model of
    the cell, the two other models, which map without error on their
    own, are never reached and no table is written for them. *)
Lemma export_AuReMe_failure_counterexample :
  translate_nonempty empty_model = inl (Raised "TranslationError") /\
  (export_mergem_mapping plain_os translate_nonempty test_model "au_A_aegypti"
     output_mapping_path empty_world).1 = inr tt /\
  (export_mergem_mapping plain_os translate_nonempty test_model "au_E_siliculosus"
     output_mapping_path empty_world).1 = inr tt /\
  export_AuReMe plain_os translate_nonempty empty_model test_model test_model
    empty_world
    = (inl (Raised "TranslationError"), empty_world) /\
  log (export_AuReMe plain_os translate_nonempty empty_model test_model test_model
         empty_world).2 = [] /\
  disk (export_AuReMe plain_os translate_nonempty empty_model test_model test_model
          empty_world).2 = ∅.
Proof. repeat split; vm_compute; reflexivity. Qed.

(** The second write of the second model fails: the cell stops there, with
    the two tables of the first model and the reaction table of the
    second. *)
Example export_AuReMe_locked :
  export_AuReMe locked_os translate_id test_model test_model test_model
    empty_world
  = (inl OSError,
     after locked_os empty_world
       (tables output_mapping_path "au_CHO" test_model test_model
        ++ [(rxn_path output_mapping_path "au_A_aegypti",
             rxn_columns (Reaction.id <$> Model.reactions test_model)
               test_model)])).
Proof. vm_compute. reflexivity. Qed.

(** With the output folder missing, the first write of the first model
    raises and nothing is written. *)
Example export_AuReMe_no_folder :
  export_AuReMe no_folder_os translate_id test_model test_model test_model
    empty_world
  = (inl OSError, empty_world).
Proof. vm_compute. reflexivity. Qed.

(** * Further properties of the notebook *)

(** ** More on strings *)

Lemma app_Empty_r (s : string) : s +:+ "" = s.
Proof. induction s as [|c s IH]; [reflexivity|]. rewrite app_String, IH. reflexivity. Qed.

Lemma app_app (a b c : string) : (a +:+ b) +:+ c = a +:+ b +:+ c.
Proof.
  induction a as [|x a IH]; [reflexivity|]. rewrite !app_String, IH. reflexivity.
Qed.

Lemma string_length_app (a b : string) :
  String.length (a +:+ b) = (String.length a + String.length b)%nat.
Proof.
  induction a as [|x a IH]; [reflexivity|]. rewrite app_String. simpl.
  rewrite IH. reflexivity.
Qed.

(** Cancellation on the right. *)
Lemma string_app_inv_tail (a b s : string) : a +:+ s = b +:+ s -> a = b.
Proof.
  intros H. assert (String.length a = String.length b) as Hlen.
  { apply (f_equal String.length) in H. rewrite !string_length_app in H. lia. }
  apply (app_inv_length _ _ _ _ Hlen H).
Qed.

(** ** More on the canonicalizer *)

Lemma extract_core_id_of_token (run tail : string) :
  no_separator run -> stops tail ->
  extract_core_id ("MNX" +:+ run +:+ tail) = "MNX" +:+ run.
Proof.
  intros Hns Hst. unfold extract_core_id.
  rewrite (search_here _ ("MNX" +:+ Re.class_star (run +:+ tail))).
  - rewrite class_star_app by assumption. reflexivity.
  - apply match_here_Some. eauto.
Qed.

(** X1: the result is a piece of the input, cut out in one block; it is
    never longer than the input. *)
Theorem extract_core_id_substring (s : string) :
  (exists pre post, s = pre +:+ extract_core_id s +:+ post) /\
  (String.length (extract_core_id s) <= String.length s)%nat.
Proof.
  assert (exists pre post, s = pre +:+ extract_core_id s +:+ post) as Hsub.
  { unfold extract_core_id. destruct (Re.search s) as [m|] eqn:Hs.
    - apply search_Some in Hs as (pre & rest & Hs & _ & ->).
      destruct (class_star_split rest) as (post & Hrest & _ & _).
      exists pre, post. rewrite app_app, <- Hrest. exact Hs.
    - exists "", "". rewrite app_Empty, app_Empty_r. reflexivity. }
  split; [exact Hsub|]. destruct Hsub as (pre & post & Hs).
  rewrite Hs at 2. rewrite !string_length_app. lia.
Qed.

(** X2: when the input holds [MNX] anywhere, the result starts with [MNX]
    and holds neither [_] nor [~]. *)
Theorem extract_core_id_clean (s pre : string) :
  occurs_at pre s ->
  exists run, extract_core_id s = "MNX" +:+ run /\ no_separator run.
Proof.
  intros Hocc. unfold extract_core_id.
  destruct (Re.search s) as [m|] eqn:Hs.
  - apply search_Some in Hs as (_ & rest & _ & _ & ->).
    destruct (class_star_split rest) as (_ & _ & Hns & _). eauto.
  - exfalso. exact (proj1 (search_None s) Hs pre Hocc).
Qed.

Lemma extract_core_id_clean_witness :
  exists run, extract_core_id "bigg_MNXR12~x_MNXR7" = "MNX" +:+ run /\
              no_separator run.
Proof.
  apply (extract_core_id_clean "bigg_MNXR12~x_MNXR7" "bigg_").
  exists "R12~x_MNXR7". reflexivity.
Defined.

(** X3: a token, [MNX] and any characters other than the separators, is
    kept whole, and whatever follows it after a separator is dropped; so
    all the variants of a token with a suffix get the same result. *)
Theorem extract_core_id_drops_suffix (run : string) (c : ascii) (suffix : string) :
  no_separator run -> separator c ->
  extract_core_id ("MNX" +:+ run) = "MNX" +:+ run /\
  extract_core_id ("MNX" +:+ run +:+ String c suffix) = "MNX" +:+ run.
Proof.
  intros Hns Hc. split.
  - rewrite <- (app_Empty_r run) at 1.
    apply extract_core_id_of_token; [exact Hns | left; reflexivity].
  - apply extract_core_id_of_token; [exact Hns | right; eauto].
Qed.

Lemma extract_core_id_drops_suffix_witness :
  extract_core_id ("MNX" +:+ "R100" +:+ String "_"%char "c_boundary~1")
    = "MNX" +:+ "R100".
Proof.
  apply (extract_core_id_drops_suffix "R100" "_"%char "c_boundary~1").
  - simpl. unfold separator. repeat split; intros [H|H]; discriminate H.
  - left. reflexivity.
Defined.

(** X4: the identifiers that the canonicalizer leaves unchanged are those
    without [MNX] and those made of [MNX] and characters other than the
    separators; every other identifier is changed. *)
Theorem extract_core_id_fixed_points (s : string) :
  extract_core_id s = s <->
  (forall pre, ~ occurs_at pre s) \/
  (exists run, s = "MNX" +:+ run /\ no_separator run).
Proof.
  split.
  - intros Hfix. unfold extract_core_id in Hfix.
    destruct (Re.search s) as [m|] eqn:Hs.
    + right. apply search_Some in Hs as (_ & rest & _ & _ & ->).
      destruct (class_star_split rest) as (_ & _ & Hns & _).
      exists (Re.class_star rest). split; [symmetry; exact Hfix | exact Hns].
    + left. exact (proj1 (search_None s) Hs).
  - intros [Hno | (run & -> & Hns)].
    + unfold extract_core_id. rewrite (proj2 (search_None s) Hno). reflexivity.
    + rewrite <- (app_Empty_r run) at 1.
      apply extract_core_id_of_token; [exact Hns | left; reflexivity].
Qed.

(** ** More on the transport classifier *)

Lemma size_gt_1 (X : gset string) :
  (1 < size X)%nat <-> exists x y, x ∈ X /\ y ∈ X /\ x <> y.
Proof.
  split.
  - intros Hsize.
    destruct (size_pos_elem_of X) as [x Hx]; [lia|].
    assert (size (X ∖ {[x]}) = (size X - 1)%nat) as Hdiff.
    { rewrite size_difference by (apply singleton_subseteq_l, Hx).
      rewrite size_singleton. reflexivity. }
    destruct (size_pos_elem_of (X ∖ {[x]})) as [y Hy]; [lia|].
    apply elem_of_difference in Hy as [Hy Hne].
    exists x, y. split; [exact Hx|]. split; [exact Hy|].
    intros ->. apply Hne, elem_of_singleton. reflexivity.
  - intros (x & y & Hx & Hy & Hne).
    assert (size ({[x]} ∪ {[y]} : gset string) = 2%nat) as H2.
    { rewrite size_union by (apply disjoint_singleton_l, not_elem_of_singleton, Hne).
      rewrite !size_singleton. reflexivity. }
    assert (({[x]} ∪ {[y]} : gset string) ⊆ X) as Hsub.
    { apply union_subseteq. split; apply singleton_subseteq_l; assumption. }
    apply subseteq_size in Hsub. lia.
Qed.

Lemma elem_of_touched_compartments (reaction : Reaction.t) (c : string) :
  c ∈ touched_compartments reaction <->
  exists met, met ∈ Reaction.metabolites reaction /\ Metabolite.compartment met = c.
Proof.
  unfold touched_compartments. rewrite elem_of_list_to_set, list_elem_of_fmap.
  split; intros (met & H1 & H2); exists met; auto.
Qed.

(** X5: a reaction is classified transport exactly when its boundary
    flag is set or two of its metabolites lie in different
    compartments. *)
Theorem is_transport_two_metabolites (reaction : Reaction.t) :
  is_transport reaction = 1 <->
  Reaction.boundary reaction = true \/
  exists met1 met2,
    met1 ∈ Reaction.metabolites reaction /\
    met2 ∈ Reaction.metabolites reaction /\
    Metabolite.compartment met1 <> Metabolite.compartment met2.
Proof.
  rewrite is_transport_1, size_gt_1. split.
  - intros [(x & y & Hx & Hy & Hne) | Hb]; [right | left; exact Hb].
    apply elem_of_touched_compartments in Hx as (met1 & Hm1 & <-).
    apply elem_of_touched_compartments in Hy as (met2 & Hm2 & <-).
    eauto.
  - intros [Hb | (met1 & met2 & Hm1 & Hm2 & Hne)]; [right; exact Hb | left].
    exists (Metabolite.compartment met1), (Metabolite.compartment met2).
    rewrite !elem_of_touched_compartments.
    split; [exists met1; auto|]. split; [exists met2; auto | exact Hne].
Qed.

(** X6: the classification depends on the metabolites only through the
    compartments that occur among them: neither the order in which the
    stoichiometry is traversed nor a repeated compartment changes it. *)
Theorem is_transport_same_compartments (reaction1 reaction2 : Reaction.t) :
  (forall c : string,
     c ∈ (Metabolite.compartment <$> Reaction.metabolites reaction1) <->
     c ∈ (Metabolite.compartment <$> Reaction.metabolites reaction2)) ->
  Reaction.boundary reaction1 = Reaction.boundary reaction2 ->
  is_transport reaction1 = is_transport reaction2.
Proof.
  intros Hsame Hb. rewrite !is_transport_cases, Hb.
  assert (touched_compartments reaction1 = touched_compartments reaction2) as ->.
  { unfold touched_compartments. apply set_eq. intros c.
    rewrite !elem_of_list_to_set. apply Hsame. }
  reflexivity.
Qed.

Lemma is_transport_same_compartments_witness :
  is_transport (Reaction.Build "MNXR9" [met_c; met_e] false) =
  is_transport (Reaction.Build "MNXR9_rev" [met_e; met_c; met_e] false).
Proof.
  apply is_transport_same_compartments; [|reflexivity].
  intros c. cbn. rewrite !elem_of_cons. tauto.
Defined.

(** ** Inspection and classification *)

Lemma foldl_append_if {A : Type} (P : A -> bool) (acc l : list A) :
  foldl (fun acc x => if P x then acc ++ [x] else acc) acc l =
  acc ++ List.filter P l.
Proof.
  revert acc. induction l as [|x l IH]; intros acc; simpl.
  - rewrite app_nil_r. reflexivity.
  - rewrite IH. destruct (P x); [|reflexivity].
    rewrite <- app_assoc. reflexivity.
Qed.

Lemma elem_of_transport_rxns (model : Model.t) (rxn : Reaction.t) :
  rxn ∈ transport_rxns model <->
  rxn ∈ Model.reactions model /\ (1 < size (touched_compartments rxn))%nat.
Proof.
  unfold transport_rxns.
  rewrite (foldl_append_if
             (fun rxn => (1 <? size (touched_compartments rxn))%nat)).
  rewrite app_nil_l, list_elem_of_In, filter_In, <- list_elem_of_In, Nat.ltb_lt.
  reflexivity.
Qed.

Lemma elem_of_boundary_rxns (model : Model.t) (rxn : Reaction.t) :
  rxn ∈ boundary_rxns model <->
  rxn ∈ Model.reactions model /\ Reaction.boundary rxn = true.
Proof.
  unfold boundary_rxns. rewrite list_elem_of_filter. tauto.
Qed.

(** X7: a reaction of the model gets the transport flag of the mapping
    exactly when [print_transports] or [print_boundaries] counts it. *)
Theorem is_transport_inspection (model : Model.t) (rxn : Reaction.t) :
  rxn ∈ Model.reactions model ->
  (is_transport rxn = 1 <->
   rxn ∈ transport_rxns model \/ rxn ∈ boundary_rxns model).
Proof.
  intros Hin. rewrite is_transport_1, elem_of_transport_rxns, elem_of_boundary_rxns.
  tauto.
Qed.

Lemma is_transport_inspection_witness :
  is_transport (Reaction.Build "MNXR1_m" [met_c] true) = 1 <->
  Reaction.Build "MNXR1_m" [met_c] true ∈ transport_rxns shared_model \/
  Reaction.Build "MNXR1_m" [met_c] true ∈ boundary_rxns shared_model.
Proof.
  apply (is_transport_inspection shared_model).
  unfold shared_model. cbn. rewrite !elem_of_cons. tauto.
Defined.

Lemma transport_rxns_filter (model : Model.t) :
  transport_rxns model =
  List.filter (fun rxn => (1 <? size (touched_compartments rxn))%nat)
    (Model.reactions model).
Proof.
  unfold transport_rxns.
  rewrite (foldl_append_if
             (fun rxn => (1 <? size (touched_compartments rxn))%nat)).
  reflexivity.
Qed.

Lemma transport_flags_count (l : list Reaction.t) :
  length (filter (fun flag => flag = 1) (is_transport <$> l)) =
  (length (List.filter (fun rxn => (1 <? size (touched_compartments rxn))%nat) l)
   + length (filter (fun rxn => ~ (1 < size (touched_compartments rxn))%nat)
               (filter (fun rxn => Reaction.boundary rxn = true) l)))%nat.
Proof.
  induction l as [|r l IH]; [reflexivity|].
  rewrite fmap_cons, (filter_cons _ (is_transport r)).
  rewrite (filter_cons (fun rxn => Reaction.boundary rxn = true) r).
  cbn [List.filter]. rewrite (is_transport_cases r).
  destruct (1 <? size (touched_compartments r))%nat eqn:E.
  - apply Nat.ltb_lt in E. rewrite decide_True by reflexivity.
    destruct (decide (Reaction.boundary r = true)).
    + rewrite filter_cons, decide_False by tauto. simpl. rewrite IH. reflexivity.
    + simpl. rewrite IH. reflexivity.
  - apply Nat.ltb_ge in E. destruct (Reaction.boundary r) eqn:B.
    + rewrite !decide_True by reflexivity.
      rewrite filter_cons, decide_True by lia. simpl. rewrite IH. lia.
    + rewrite !decide_False by discriminate. exact IH.
Qed.

(** X8: the number of reactions flagged [1] in the [transport] column is
    the count that [print_transports] prints plus the number of boundary
    reactions within one compartment; so it is at least each of the two
    counts printed by [print_transports] and [print_boundaries], and at
    most their sum. *)
Theorem transport_column_count (model : Model.t) :
  let flagged := length (filter (fun flag => flag = 1) (transport_rxn_class model)) in
  flagged =
    (length (transport_rxns model)
     + length (filter (fun rxn => ~ (1 < size (touched_compartments rxn))%nat)
                 (boundary_rxns model)))%nat /\
  (length (transport_rxns model) <= flagged)%nat /\
  (length (boundary_rxns model) <= flagged)%nat /\
  (flagged <= length (transport_rxns model) + length (boundary_rxns model))%nat.
Proof.
  intros flagged.
  assert (flagged =
    (length (transport_rxns model)
     + length (filter (fun rxn => ~ (1 < size (touched_compartments rxn))%nat)
                 (boundary_rxns model)))%nat) as Heq.
  { unfold flagged, transport_rxn_class, boundary_rxns.
    rewrite transport_rxns_filter. apply transport_flags_count. }
  split; [exact Heq|]. split; [lia|].
  pose proof (length_filter
                (fun rxn => ~ (1 < size (touched_compartments rxn))%nat)
                (boundary_rxns model)) as Hle.
  split; [|lia].
  (* a boundary reaction is flagged *)
  unfold flagged, transport_rxn_class, boundary_rxns.
  clear. induction (Model.reactions model) as [|r l IH]; [reflexivity|].
  rewrite fmap_cons, !filter_cons.
  destruct (decide (Reaction.boundary r = true)) as [Hb|Hb].
  - rewrite decide_True by (apply is_transport_1; auto). simpl. lia.
  - case_decide; simpl; lia.
Qed.

(** ** Reactions that share a core identifier *)

Lemma elem_of_distinct (l : list string) (x : string) :
  x ∈ distinct l <-> x ∈ l.
Proof.
  induction l as [|a l IH]; simpl; [reflexivity|].
  rewrite !elem_of_cons, list_elem_of_filter, IH.
  destruct (decide (x = a)); tauto.
Qed.

Lemma NoDup_distinct (l : list string) : NoDup (distinct l).
Proof.
  induction l as [|a l IH]; simpl; [constructor|].
  constructor.
  - rewrite list_elem_of_filter. tauto.
  - apply NoDup_filter, IH.
Qed.

Lemma filter_none {A : Type} (P : A -> Prop) `{!forall x, Decision (P x)}
    (l : list A) :
  (forall x, x ∈ l -> ~ P x) -> filter P l = [].
Proof.
  induction l as [|a l IH]; intros Hall; [reflexivity|].
  rewrite filter_cons, decide_False by (apply Hall; left).
  apply IH. intros x Hx. apply Hall. right. exact Hx.
Qed.

Lemma filter_all {A : Type} (P : A -> Prop) `{!forall x, Decision (P x)}
    (l : list A) :
  (forall x, x ∈ l -> P x) -> filter P l = l.
Proof.
  induction l as [|a l IH]; intros Hall; [reflexivity|].
  rewrite filter_cons, decide_True by (apply Hall; left).
  f_equal. apply IH. intros x Hx. apply Hall. right. exact Hx.
Qed.

Lemma distinct_snoc (l : list string) (x : string) :
  distinct (l ++ [x]) = if decide (x ∈ l) then distinct l else distinct l ++ [x].
Proof.
  induction l as [|a l IH]; [reflexivity|].
  cbn [app distinct]. rewrite IH.
  destruct (decide (x ∈ a :: l)) as [Hin'|Hin'];
    destruct (decide (x ∈ l)) as [Hin|Hin].
  - reflexivity.
  - apply elem_of_cons in Hin' as [->|?]; [|tauto].
    rewrite filter_app, (filter_cons _ a), decide_False by tauto.
    rewrite filter_nil, app_nil_r. reflexivity.
  - exfalso. apply Hin'. right. exact Hin.
  - rewrite filter_app, (filter_cons _ x), decide_True; [reflexivity|].
    intros ->. apply Hin'. left.
Qed.

Lemma group_of_snoc_ne (l : list Reaction.t) (r : Reaction.t) (k : string) :
  k <> core_id r -> group_of (l ++ [r]) k = group_of l k.
Proof.
  intros Hne. unfold group_of. rewrite filter_app, (filter_cons _ r).
  rewrite decide_False by congruence. rewrite filter_nil, app_nil_r. reflexivity.
Qed.

Lemma group_of_snoc_eq (l : list Reaction.t) (r : Reaction.t) :
  group_of (l ++ [r]) (core_id r) =
  (core_id r, filter (fun reaction => core_id reaction = core_id r) l ++ [r]).
Proof.
  unfold group_of. rewrite filter_app, (filter_cons _ r).
  rewrite decide_True by reflexivity. reflexivity.
Qed.

Lemma dd_append_groups (l : list Reaction.t) (r : Reaction.t) (ks : list string) :
  NoDup ks ->
  (core_id r ∉ ks -> filter (fun reaction => core_id reaction = core_id r) l = []) ->
  dd_append (core_id r) r (group_of l <$> ks) =
  group_of (l ++ [r]) <$>
    (if decide (core_id r ∈ ks) then ks else ks ++ [core_id r]).
Proof.
  induction ks as [|k ks IH]; intros Hnd Hnew.
  - rewrite decide_False by apply not_elem_of_nil.
    cbn [fmap list_fmap dd_append app].
    rewrite group_of_snoc_eq, Hnew by apply not_elem_of_nil. reflexivity.
  - apply NoDup_cons in Hnd as [Hk Hnd]. cbn [fmap list_fmap dd_append group_of fst].
    fold (group_of l k).
    destruct (String.eqb_spec k (core_id r)) as [->|Hne].
    + rewrite decide_True by left. rewrite fmap_cons, group_of_snoc_eq. f_equal.
      apply Forall_fmap_ext, Forall_forall. intros k' Hk'. symmetry.
      apply group_of_snoc_ne. intros ->. exact (Hk Hk').
    + change (list_fmap _ _ (group_of l) ks) with (group_of l <$> ks).
      rewrite IH; [|exact Hnd|].
      * destruct (decide (core_id r ∈ ks)) as [Hin|Hin].
        -- rewrite decide_True by (right; exact Hin).
           rewrite fmap_cons, group_of_snoc_ne by exact Hne. reflexivity.
        -- rewrite decide_False by (rewrite elem_of_cons; intros [?|?]; congruence).
           cbn [app]. rewrite fmap_cons, group_of_snoc_ne by exact Hne. reflexivity.
      * intros Hin. apply Hnew. rewrite elem_of_cons. intros [?|?]; congruence.
Qed.

Lemma duplicated_reactions_groups (l : list Reaction.t) :
  foldl (fun d reaction => dd_append (core_id reaction) reaction d) [] l =
  group_of l <$> distinct (core_id <$> l).
Proof.
  induction l as [|r l IH] using rev_ind; [reflexivity|].
  rewrite foldl_app. cbn [foldl]. rewrite IH, fmap_app. cbn [fmap list_fmap].
  rewrite distinct_snoc. rewrite dd_append_groups.
  - destruct (decide (core_id r ∈ distinct (core_id <$> l))) as [Hin|Hin].
    + rewrite decide_True by (apply elem_of_distinct, Hin). reflexivity.
    + rewrite decide_False; [reflexivity|].
      intros H. apply Hin, elem_of_distinct, H.
  - apply NoDup_distinct.
  - intros Hnot. apply filter_none. intros x Hx Hcore.
    apply Hnot, elem_of_distinct, list_elem_of_fmap. eauto.
Qed.

Lemma group_of_keys (l : list Reaction.t) (ks : list string) :
  (group_of l <$> ks).*1 = ks.
Proof.
  induction ks as [|k ks IH]; [reflexivity|].
  rewrite !fmap_cons, IH. reflexivity.
Qed.

(** X9: [duplicated_reactions] has one entry for each distinct core
    identifier, in the order in which the identifiers first occur among
    the reactions of the model; the entry of an identifier lists all the
    reactions with that core identifier, in the order of the model.  No
    identifier is bound twice, and every reaction is in the entry of its
    own core identifier. *)
Theorem duplicated_reactions_partition (model : Model.t) :
  duplicated_reactions model =
    group_of (Model.reactions model) <$>
      distinct (core_id <$> Model.reactions model) /\
  NoDup (duplicated_reactions model).*1 /\
  (forall reaction : Reaction.t,
     reaction ∈ Model.reactions model ->
     exists reactions,
       (core_id reaction, reactions) ∈ duplicated_reactions model /\
       reaction ∈ reactions).
Proof.
  unfold duplicated_reactions. rewrite duplicated_reactions_groups.
  split; [reflexivity|]. split.
  - rewrite group_of_keys. apply NoDup_distinct.
  - intros reaction Hin.
    exists (filter (fun r => core_id r = core_id reaction) (Model.reactions model)).
    split.
    + apply list_elem_of_fmap. exists (core_id reaction).
      split; [reflexivity|]. apply elem_of_distinct, list_elem_of_fmap. eauto.
    + apply list_elem_of_filter. auto.
Qed.

Lemma py_sum_from (a : Z) (l : list Z) : foldl Z.add a l = a + py_sum l.
Proof.
  unfold py_sum. revert a. induction l as [|x l IH]; intros a; cbn [foldl]; [lia|].
  rewrite (IH (a + x)), (IH (0 + x)). lia.
Qed.

Lemma py_sum_cons (x : Z) (l : list Z) : py_sum (x :: l) = x + py_sum l.
Proof. unfold py_sum at 1. cbn [foldl]. rewrite py_sum_from. lia. Qed.


Lemma dd_append_held (k : string) (r : Reaction.t)
    (d : list (string * list Reaction.t)) :
  held (dd_append k r d) = held d + 1.
Proof.
  unfold held. induction d as [|[k' rs] d IH]; [reflexivity|]. cbn [dd_append].
  destruct (String.eqb k' k).
  - rewrite !fmap_cons, !py_sum_cons. cbn [snd]. rewrite length_app. simpl. lia.
  - rewrite !fmap_cons, !py_sum_cons, IH. lia.
Qed.

Lemma dd_append_nonempty (k : string) (r : Reaction.t)
    (d : list (string * list Reaction.t)) :
  Forall (fun kv => kv.2 <> []) d ->
  Forall (fun kv => kv.2 <> []) (dd_append k r d).
Proof.
  induction 1 as [|[k' rs] d Hrs Hd IH]; cbn [dd_append].
  - repeat constructor. discriminate.
  - destruct (String.eqb k' k); constructor; try assumption.
    cbn. intros H. apply app_eq_nil in H as [_ H]. discriminate H.
Qed.

Lemma foldl_dd_append (l : list Reaction.t) (d : list (string * list Reaction.t)) :
  Forall (fun kv => kv.2 <> []) d ->
  let d' := foldl (fun d reaction => dd_append (core_id reaction) reaction d) d l in
  Forall (fun kv => kv.2 <> []) d' /\ held d' = held d + Z.of_nat (length l).
Proof.
  revert d. induction l as [|r l IH]; intros d Hd; cbn [foldl length].
  - split; [exact Hd | lia].
  - destruct (IH _ (dd_append_nonempty (core_id r) r d Hd)) as [Hne Hheld].
    split; [exact Hne|]. cbv zeta in Hheld. rewrite Hheld, dd_append_held. lia.
Qed.

Lemma sum_beyond_first (d : list (string * list Reaction.t)) :
  Forall (fun kv => kv.2 <> []) d ->
  py_sum ((fun kv => Z.of_nat (length kv.2) - 1)
            <$> filter (fun kv => (1 < length kv.2)%nat) d) =
  held d - Z.of_nat (length d).
Proof.
  unfold held. induction 1 as [|[k rs] d Hrs Hd IH]; [reflexivity|].
  rewrite filter_cons, fmap_cons, py_sum_cons. cbn [snd length] in *.
  destruct (decide (1 < length rs)%nat) as [Hlen|Hlen].
  - rewrite fmap_cons, py_sum_cons, IH. cbn [snd]. lia.
  - rewrite IH. destruct rs as [|r [|r' rs]]; [congruence | simpl; lia |].
    simpl in Hlen. lia.
Qed.

Lemma length_distinct (l : list string) : (length (distinct l) <= length l)%nat.
Proof.
  induction l as [|a l IH]; simpl; [lia|].
  pose proof (length_filter (fun y => y <> a) (distinct l)). lia.
Qed.

Lemma filter_length_all {A : Type} (P : A -> Prop) `{!forall x, Decision (P x)}
    (l : list A) :
  length (filter P l) = length l -> forall x, x ∈ l -> P x.
Proof.
  induction l as [|a l IH]; intros Hlen x Hx; [inversion Hx|].
  rewrite filter_cons in Hlen. pose proof (length_filter P l) as Hle.
  destruct (decide (P a)) as [Ha|Ha]; simpl in Hlen; [|lia].
  apply elem_of_cons in Hx as [->|Hx]; [exact Ha|].
  apply IH; [lia | exact Hx].
Qed.

Lemma length_distinct_NoDup (l : list string) :
  length (distinct l) = length l <-> NoDup l.
Proof.
  induction l as [|a l IH]; simpl.
  - split; [constructor | reflexivity].
  - pose proof (length_filter (fun y => y <> a) (distinct l)) as Hle.
    pose proof (length_distinct l) as Hle'.
    rewrite NoDup_cons. split.
    + intros Hlen.
      assert (length (filter (fun y => y <> a) (distinct l)) = length (distinct l))
        as Hall by lia.
      split; [|apply IH; lia].
      intros Hin. apply elem_of_distinct in Hin.
      exact (filter_length_all _ _ Hall a Hin eq_refl).
    + intros [Hnotin Hnd]. apply IH in Hnd.
      rewrite filter_all; [lia|].
      intros x Hx ->. apply Hnotin, elem_of_distinct, Hx.
Qed.

(** X10: the count that [print_shared_core_rxns] reports is the number
    of reactions minus the number of distinct core identifiers.  It is
    never negative, and it is zero exactly when no two reactions of the
    model share their core identifier. *)
Theorem duplicated_count_formula (model : Model.t) :
  duplicated_count model =
    Z.of_nat (length (Model.reactions model))
    - Z.of_nat (length (distinct (core_id <$> Model.reactions model))) /\
  0 <= duplicated_count model /\
  (duplicated_count model = 0 <-> NoDup (core_id <$> Model.reactions model)).
Proof.
  assert (duplicated_count model =
    Z.of_nat (length (Model.reactions model))
    - Z.of_nat (length (distinct (core_id <$> Model.reactions model)))) as Heq.
  { unfold duplicated_count, duplicate_instances.
    destruct (foldl_dd_append (Model.reactions model) [] (Forall_nil_2 _))
      as [Hne Hheld].
    fold (duplicated_reactions model) in Hne, Hheld. cbv zeta in Hheld.
    rewrite sum_beyond_first by exact Hne. rewrite Hheld.
    unfold duplicated_reactions at 1.
    rewrite duplicated_reactions_groups, length_fmap.
    change (held []) with 0. lia. }
  pose proof (length_distinct (core_id <$> Model.reactions model)) as Hle.
  rewrite length_fmap in Hle.
  split; [exact Heq|]. split; [lia|].
  rewrite <- length_distinct_NoDup, length_fmap. lia.
Qed.

(** ** How many entries are printed *)

Lemma print_groups_take (repr : string -> string)
    (items : list (string * list Reaction.t)) (i n : Z) :
  print_groups repr items i n =
  (fun kv => kv.1 +:+ ": " +:+ list_repr repr (Reaction.id <$> kv.2))
    <$> take (Z.to_nat (n - i)) items.
Proof.
  revert i. induction items as [|[k rs] items IH]; intros i; cbn [print_groups].
  - rewrite take_nil. reflexivity.
  - destruct (Z.leb_spec n i) as [Hle|Hlt].
    + replace (Z.to_nat (n - i)) with 0%nat by lia. reflexivity.
    + replace (Z.to_nat (n - i)) with (S (Z.to_nat (n - (i + 1)))) by lia.
      rewrite IH. reflexivity.
Qed.

(** X11: after its two heading lines, [print_shared_core_rxns] prints
    the first [n] groups of more than one reaction, in the order in which
    their core identifiers first occur in the model, and then an empty
    line; it prints no group when [n] is zero or negative, and all of
    them when [n] is at least their number. *)
Theorem print_shared_core_rxns_shown
    (repr : string -> string) (model : Model.t) (n : Z) :
  let groups :=
    filter (fun kv => (1 < length kv.2)%nat)
      (group_of (Model.reactions model) <$>
         distinct (core_id <$> Model.reactions model)) in
  let entry := fun kv : string * list Reaction.t =>
    kv.1 +:+ ": " +:+ list_repr repr (Reaction.id <$> kv.2) in
  print_shared_core_rxns repr model n =
    [ nl +:+ "Number of putatively duplicated reactions, i.e. sharing core ID (everything before the first underscore): "
         +:+ str_int (duplicated_count model);
      nl +:+ "First n putatively duplicated reactions:" ]
    ++ (entry <$> take (Z.to_nat n) groups) ++ [ nl ] /\
  (n <= 0 -> take (Z.to_nat n) groups = []) /\
  (Z.of_nat (length groups) <= n -> take (Z.to_nat n) groups = groups).
Proof.
  intros groups entry. split; [|split].
  - unfold print_shared_core_rxns. rewrite print_groups_take, Z.sub_0_r.
    unfold duplicate_instances, duplicated_reactions.
    rewrite duplicated_reactions_groups. reflexivity.
  - intros Hn. replace (Z.to_nat n) with 0%nat by lia. reflexivity.
  - intros Hn. apply take_ge. lia.
Qed.

Lemma slice_to_negative {A : Type} (l : list A) (n : Z) :
  n < 0 ->
  exists dropped,
    l = slice_to l n ++ dropped /\
    length dropped = Nat.min (Z.to_nat (- n)) (length l).
Proof.
  intros Hn. unfold slice_to. destruct (Z.leb_spec 0 n) as [?|_]; [lia|].
  exists (drop (length l - Z.to_nat (- n)) l).
  split; [symmetry; apply take_drop|]. rewrite length_drop. lia.
Qed.

(** X12: with a negative [n], the functions that slice a list print,
    after their two heading lines, the entries of the list without its
    last [-n] ones, in order, whereas [print_shared_core_rxns], which
    counts in a loop, prints its two heading lines, no group, and the
    final empty line. *)
Theorem negative_n_entries
    (reaction_string : Reaction.t -> string) (repr : string -> string)
    (model : Model.t) (n : Z) :
  n < 0 ->
  let entry := fun rxn : Reaction.t =>
    py_print [Reaction.id rxn; ": "; reaction_string rxn] in
  (exists shown dropped,
     Model.reactions model = shown ++ dropped /\
     length dropped = Nat.min (Z.to_nat (- n)) (length (Model.reactions model)) /\
     print_rxns reaction_string model n =
       [ "Number of reactions in the model: "
           +:+ str_int (Z.of_nat (length (Model.reactions model)));
         nl +:+ "First n reactions in the model:" ]
       ++ (entry <$> shown)) /\
  (exists shown dropped,
     Model.metabolites model = shown ++ dropped /\
     length dropped = Nat.min (Z.to_nat (- n)) (length (Model.metabolites model)) /\
     print_mets model n =
       [ nl +:+ "Number of metabolites in the model: "
            +:+ str_int (Z.of_nat (length (Model.metabolites model)));
         nl +:+ "First n metabolites in the model:" ]
       ++ ((fun met => py_print [Metabolite.id met; ": ";
                                 str_formula (Metabolite.formula met)])
             <$> shown)) /\
  (exists shown dropped,
     transport_rxns model = shown ++ dropped /\
     length dropped = Nat.min (Z.to_nat (- n)) (length (transport_rxns model)) /\
     print_transports reaction_string model n =
       [ nl +:+ "Number of transport reactions in the model: "
            +:+ str_int (Z.of_nat (length (transport_rxns model)));
         nl +:+ "First n transport reactions in the model:" ]
       ++ (entry <$> shown)) /\
  (exists shown dropped,
     boundary_rxns model = shown ++ dropped /\
     length dropped = Nat.min (Z.to_nat (- n)) (length (boundary_rxns model)) /\
     print_boundaries reaction_string model n =
       [ nl +:+ "Number of boundary reactions in the model: "
            +:+ str_int (Z.of_nat (length (boundary_rxns model)));
         nl +:+ "First n boundary reactions in the model:" ]
       ++ (entry <$> shown)) /\
  print_shared_core_rxns repr model n =
    [ nl +:+ "Number of putatively duplicated reactions, i.e. sharing core ID (everything before the first underscore): "
         +:+ str_int (duplicated_count model);
      nl +:+ "First n putatively duplicated reactions:";
      nl ].
Proof.
  intros Hn entry.
  destruct (slice_to_negative (Model.reactions model) n Hn) as (d1 & H1 & L1).
  destruct (slice_to_negative (Model.metabolites model) n Hn) as (d2 & H2 & L2).
  destruct (slice_to_negative (transport_rxns model) n Hn) as (d3 & H3 & L3).
  destruct (slice_to_negative (boundary_rxns model) n Hn) as (d4 & H4 & L4).
  split; [exists (slice_to (Model.reactions model) n), d1; auto|].
  split; [exists (slice_to (Model.metabolites model) n), d2; auto|].
  split; [exists (slice_to (transport_rxns model) n), d3; auto|].
  split; [exists (slice_to (boundary_rxns model) n), d4; auto|].
  unfold print_shared_core_rxns. rewrite print_groups_take.
  replace (Z.to_nat (n - 0)) with 0%nat by lia. reflexivity.
Qed.

Lemma negative_n_entries_witness :
  print_rxns (fun _ => "") shared_model (-2) =
    [ "Number of reactions in the model: 6";
      nl +:+ "First n reactions in the model:";
      "MNXR1_c :  "; "MNXR2_c :  "; "MNXR1_e :  "; "MNXR9 :  " ] /\
  print_shared_core_rxns (fun s => s) shared_model (-2) =
    [ nl +:+ "Number of putatively duplicated reactions, i.e. sharing core ID (everything before the first underscore): 3";
      nl +:+ "First n putatively duplicated reactions:";
      nl ].
Proof.
  destruct (negative_n_entries (fun _ => "") (fun s => s) shared_model (-2))
    as ((shown & dropped & Hsplit & Hlen & Hr) & _ & _ & _ & Hs); [reflexivity|].
  split; [|rewrite Hs; vm_compute; reflexivity].
  rewrite Hr. clear Hr Hs.
  destruct dropped as [|r1 [|r2 [|r3 dropped]]]; try discriminate Hlen.
  assert (shown = take 4 (Model.reactions shared_model)) as ->.
  { rewrite Hsplit. rewrite take_app_length'; [reflexivity|].
    apply (f_equal length) in Hsplit. rewrite length_app in Hsplit.
    cbn in Hsplit. lia. }
  vm_compute. reflexivity.
Defined.

(** ** The core identifier of the inspection *)

Lemma str_split_first (s : string) :
  exists p ps, str_split "_"%char s = p :: ps /\ lacks "_"%char p /\
    (s = p /\ ps = [] \/ exists rest, s = p +:+ String "_"%char rest).
Proof.
  induction s as [|c r (p & ps & Hsplit & Hlacks & Hshape)]; cbn [str_split].
  - exists "", []. cbn. auto.
  - destruct (Ascii.eqb_spec c "_"%char) as [->|Hc].
    + exists "", (str_split "_"%char r). cbn. split; [reflexivity|].
      split; [exact I|]. right. exists r. reflexivity.
    + rewrite Hsplit. exists (String c p), ps. split; [reflexivity|].
      split; [cbn; auto|].
      destruct Hshape as [[-> ->] | [rest ->]]; [left; auto | right].
      exists rest. reflexivity.
Qed.

(** X13: the core identifier of [print_shared_core_rxns] is everything
    before the first underscore of the reaction identifier, and the whole
    identifier when it has no underscore. *)
Theorem core_id_before_underscore (reaction : Reaction.t) :
  lacks "_"%char (core_id reaction) /\
  (Reaction.id reaction = core_id reaction \/
   exists rest, Reaction.id reaction = core_id reaction +:+ String "_"%char rest).
Proof.
  unfold core_id.
  destruct (str_split_first (Reaction.id reaction))
    as (p & ps & -> & Hlacks & Hshape).
  cbn. split; [exact Hlacks|].
  destruct Hshape as [[-> _] | [rest ->]]; [left; reflexivity | right; eauto].
Qed.

Lemma lacks_split_unique (p q rest rest' : string) :
  lacks "_"%char p -> lacks "_"%char q ->
  p +:+ String "_"%char rest = q +:+ String "_"%char rest' -> p = q.
Proof.
  revert q. induction p as [|c p IH]; intros [|d q] Hp Hq Heq;
    rewrite ?app_String, ?app_Empty in Heq.
  - reflexivity.
  - injection Heq as <- _. destruct Hq as [Hd _]. congruence.
  - injection Heq as -> _. destruct Hp as [Hc _]. congruence.
  - injection Heq as -> Heq. destruct Hp as [_ Hp], Hq as [_ Hq].
    rewrite (IH q Hp Hq Heq). reflexivity.
Qed.

Lemma lacks_whole_unique (p q rest : string) :
  lacks "_"%char p -> p = q +:+ String "_"%char rest -> False.
Proof.
  revert p. induction q as [|d q IH]; intros [|c p] Hp Heq;
    rewrite ?app_String, ?app_Empty in Heq; try discriminate.
  - injection Heq as -> _. destruct Hp as [Hc _]. congruence.
  - injection Heq as -> Heq. destruct Hp as [_ Hp]. exact (IH p Hp Heq).
Qed.

Lemma no_separator_lacks (run : string) :
  no_separator run -> lacks "_"%char run.
Proof.
  induction run as [|c run IH]; [auto|]. intros [Hc Hrun]. split; [|auto].
  intros ->. apply Hc. left. reflexivity.
Qed.

(** X14: on an identifier that starts with a token, [MNX] and characters
    other than the separators, followed by nothing or by an underscore and
    a suffix, the core identifier of the inspection is the identifier that
    the mapping keeps: both are the token. *)
Theorem core_id_agrees (reaction : Reaction.t) (run tail : string) :
  Reaction.id reaction = "MNX" +:+ run +:+ tail ->
  no_separator run ->
  tail = "" \/ (exists rest, tail = String "_"%char rest) ->
  core_id reaction = "MNX" +:+ run /\
  extract_core_id (Reaction.id reaction) = "MNX" +:+ run.
Proof.
  intros Hid Hns Htail.
  assert (lacks "_"%char ("MNX" +:+ run)) as Htoken.
  { cbn. repeat split; try discriminate. apply no_separator_lacks, Hns. }
  split.
  - unfold core_id.
    destruct (str_split_first (Reaction.id reaction))
      as (p & ps & -> & Hlacks & Hshape).
    cbn [lookup list_lookup default from_option].
    assert ("MNX" +:+ run +:+ tail = p \/
            exists rest, "MNX" +:+ run +:+ tail = p +:+ String "_"%char rest)
      as Hshape'.
    { rewrite <- Hid. destruct Hshape as [[? _] | [rest ?]]; eauto. }
    clear Hshape. rename Hshape' into Hshape.
    destruct Htail as [-> | [rest ->]].
    + rewrite app_Empty_r in Hshape. destruct Hshape as [H | [rest' H]].
      * symmetry. exact H.
      * exfalso. exact (lacks_whole_unique _ _ _ Htoken H).
    + rewrite <- app_app in Hshape. destruct Hshape as [H | [rest' H]].
      * exfalso. symmetry in H. exact (lacks_whole_unique _ _ _ Hlacks H).
      * symmetry. exact (lacks_split_unique _ _ _ _ Htoken Hlacks H).
  - rewrite Hid. apply extract_core_id_of_token; [exact Hns|].
    destruct Htail as [-> | [rest ->]]; [left; reflexivity | right].
    exists "_"%char, rest. split; [reflexivity | left; reflexivity].
Qed.

Lemma core_id_agrees_witness :
  core_id (Reaction.Build "MNXR1_c" [met_c] false) = "MNX" +:+ "R1" /\
  extract_core_id "MNXR1_c" = "MNX" +:+ "R1".
Proof.
  apply (core_id_agrees (Reaction.Build "MNXR1_c" [met_c] false) "R1" "_c").
  - reflexivity.
  - cbn. unfold separator. repeat split; intros [H|H]; discriminate H.
  - right. exists "c". reflexivity.
Defined.

(** Where the two differ: a token ended by [~], and a token after a
    prefix. *)
Example core_id_tilde :
  core_id (Reaction.Build "MNXR1~2_c" [] false) = "MNXR1~2" /\
  extract_core_id "MNXR1~2_c" = "MNXR1".
Proof. split; reflexivity. Qed.

Example core_id_prefixed :
  core_id (Reaction.Build "R_MNXR1_c" [] false) = "R" /\
  extract_core_id "R_MNXR1_c" = "MNXR1".
Proof. split; reflexivity. Qed.

(** ** File names *)

Lemma rxn_path_inj (out name1 name2 : string) :
  rxn_path out name1 = rxn_path out name2 -> name1 = name2.
Proof.
  unfold rxn_path. intros H.
  apply (inj (String.app out)), (inj (String.app "/")) in H.
  exact (string_app_inv_tail _ _ _ H).
Qed.

Lemma met_path_inj (out name1 name2 : string) :
  met_path out name1 = met_path out name2 -> name1 = name2.
Proof.
  unfold met_path. intros H.
  apply (inj (String.app out)), (inj (String.app "/")) in H.
  exact (string_app_inv_tail _ _ _ H).
Qed.

Lemma rxn_path_met_path (out name1 name2 : string) :
  rxn_path out name1 <> met_path out name2.
Proof.
  unfold rxn_path, met_path. intros H.
  apply (inj (String.app out)), (inj (String.app "/")) in H.
  assert (String.length name1 = String.length name2) as Hlen.
  { apply (f_equal String.length) in H. rewrite !string_length_app in H.
    cbn in H. lia. }
  destruct (app_inv_length _ _ _ _ Hlen H) as [_ Hsuffix]. discriminate Hsuffix.
Qed.

(** X15: models with different names never get the same path: for names
    without repetition, the paths of the reaction tables and of the
    metabolite tables under one folder are all different from each
    other.  Whether two different paths name one file is for the system to
    say. *)
Theorem mapping_paths_distinct (out : string) (names : list string) :
  NoDup names ->
  NoDup ((rxn_path out <$> names) ++ (met_path out <$> names)).
Proof.
  intros Hnd. apply NoDup_app. split; [|split].
  - apply (NoDup_fmap_2_strong (rxn_path out)); [|exact Hnd].
    intros n1 n2 _ _. apply rxn_path_inj.
  - intros path Hr Hm.
    apply list_elem_of_fmap in Hr as (n1 & -> & _).
    apply list_elem_of_fmap in Hm as (n2 & Heq & _).
    exact (rxn_path_met_path _ _ _ Heq).
  - apply (NoDup_fmap_2_strong (met_path out)); [|exact Hnd].
    intros n1 n2 _ _. apply met_path_inj.
Qed.

(** The names passed by the mapping cells of the notebook are such
    names. *)
Lemma mapping_paths_distinct_witness :
  NoDup ((rxn_path output_mapping_path <$> concat notebook_names)
         ++ (met_path output_mapping_path <$> concat notebook_names)).
Proof.
  apply (mapping_paths_distinct output_mapping_path (concat notebook_names)).
  apply (bool_decide_eq_true_1 (NoDup (concat notebook_names))).
  vm_compute. reflexivity.
Defined.

(** ** Overwriting *)

Lemma disk_after_tables (os : OS) (w : World) (out name : string)
    (model mapped_model : Model.t) :
  disk (after os w (tables out name model mapped_model)) =
  <[file_of os (met_path out name) :=
      met_columns (Metabolite.id <$> Model.metabolites model) mapped_model]>
    (<[file_of os (rxn_path out name) :=
         rxn_columns (Reaction.id <$> Model.reactions model) mapped_model]>
       (disk w)).
Proof. reflexivity. Qed.

(** X16: a run replaces what the two files held and appends nothing: the
    outcome, and the disk left by a run that returns, do not depend on
    the former content of the two files of the model. *)
Theorem export_mergem_mapping_overwrites
    (os : OS) (translate : Model.t -> exn + Model.t) (model : Model.t)
    (name out : string) (w1 w2 : World) :
  (forall file : string,
     file <> file_of os (rxn_path out name) ->
     file <> file_of os (met_path out name) ->
     disk w1 !! file = disk w2 !! file) ->
  (export_mergem_mapping os translate model name out w1).1 =
  (export_mergem_mapping os translate model name out w2).1 /\
  ((export_mergem_mapping os translate model name out w1).1 = inr tt ->
   disk (export_mergem_mapping os translate model name out w1).2 =
   disk (export_mergem_mapping os translate model name out w2).2).
Proof.
  intros Hagree. rewrite !export_mergem_mapping_run.
  destruct (translate model) as [e|mapped_model]; [split; [reflexivity|discriminate]|].
  repeat case_decide; try (split; [reflexivity|discriminate]).
  destruct (can_write os (rxn_path out name)); [|split; [reflexivity|discriminate]].
  destruct (can_write os (met_path out name)); [|split; [reflexivity|discriminate]].
  cbn [fst snd]. split; [reflexivity|]. intros _.
  rewrite !disk_after_tables. apply map_eq. intros file.
  destruct (decide (file = file_of os (met_path out name))) as [->|Hm].
  { rewrite !lookup_insert_eq. reflexivity. }
  rewrite !(lookup_insert_ne _ (file_of os (met_path out name))) by congruence.
  destruct (decide (file = file_of os (rxn_path out name))) as [->|Hr].
  { rewrite !lookup_insert_eq. reflexivity. }
  rewrite !lookup_insert_ne by congruence. apply Hagree; assumption.
Qed.

Lemma export_mergem_mapping_overwrites_witness :
  disk (export_mergem_mapping plain_os translate_id test_model
          "au_CHO" "mapping_results"
          {| disk := <[rxn_path "mapping_results" "au_CHO" := [("stale", [Int 7])]]> ∅;
             log := [] |}).2 =
  disk (export_mergem_mapping plain_os translate_id test_model
          "au_CHO" "mapping_results" empty_world).2.
Proof.
  apply (export_mergem_mapping_overwrites plain_os translate_id test_model
           "au_CHO" "mapping_results").
  - intros file Hr _. cbn [disk empty_world].
    rewrite lookup_insert_ne by (intros H; apply Hr; rewrite <- H; reflexivity).
    reflexivity.
  - vm_compute. reflexivity.
Defined.

(** ** Cells of several mappings *)

Lemma mapping_cell_cons
    (os : OS) (translate : Model.t -> exn + Model.t) (model : Model.t)
    (name : string) (rest : list (Model.t * string)) (w : World) :
  mapping_cell os translate ((model, name) :: rest) w =
    match export_mergem_mapping os translate model name output_mapping_path w with
    | (inl e, w1) => (inl e, w1)
    | (inr _, w1) => mapping_cell os translate rest w1
    end.
Proof. reflexivity. Qed.

Lemma mapping_cell_app
    (os : OS) (translate : Model.t -> exn + Model.t)
    (calls1 calls2 : list (Model.t * string)) (w : World) :
  mapping_cell os translate (calls1 ++ calls2) w =
    match mapping_cell os translate calls1 w with
    | (inl e, w1) => (inl e, w1)
    | (inr _, w1) => mapping_cell os translate calls2 w1
    end.
Proof.
  revert w. induction calls1 as [|[model name] calls1 IH]; intros w.
  - reflexivity.
  - cbn [app]. rewrite !mapping_cell_cons.
    destruct (export_mergem_mapping os translate model name output_mapping_path w)
      as [[e|[]] w1]; [reflexivity | apply IH].
Qed.

(** The cell of section 3.1.2 is such a cell. *)
Lemma export_AuReMe_cell
    (os : OS) (translate : Model.t -> exn + Model.t) (m1 m2 m3 : Model.t)
    (w : World) :
  export_AuReMe os translate m1 m2 m3 w =
  mapping_cell os translate
    [(m1, "au_CHO"); (m2, "au_A_aegypti"); (m3, "au_E_siliculosus")] w.
Proof.
  rewrite export_AuReMe_run, mapping_cell_cons.
  destruct (export_mergem_mapping os translate m1 _ _ w) as [[e1|[]] w1];
    [reflexivity|]. rewrite mapping_cell_cons.
  destruct (export_mergem_mapping os translate m2 _ _ w1) as [[e2|[]] w2];
    [reflexivity|]. rewrite mapping_cell_cons.
  destruct (export_mergem_mapping os translate m3 _ _ w2) as [[e3|[]] w3];
    reflexivity.
Qed.

(** X17: a cell stops at its first call that raises, whatever its
    length: when the calls before have returned and the next one raises,
    the cell raises the same exception in the state that the raising call
    has left, and no later call is made.  That state is the one left by
    the calls before, with nothing added, unless the exception is the
    [OSError] of the second write of the raising call: then the reaction
    table of its model is added, and nothing else. *)
Theorem mapping_cell_stops
    (os : OS) (translate : Model.t -> exn + Model.t)
    (before : list (Model.t * string)) (model : Model.t) (name : string)
    (later : list (Model.t * string)) (w : World) (e : exn) :
  (mapping_cell os translate before w).1 = inr tt ->
  (export_mergem_mapping os translate model name output_mapping_path
     (mapping_cell os translate before w).2).1 = inl e ->
  let reached := (mapping_cell os translate before w).2 in
  let left :=
    (export_mergem_mapping os translate model name output_mapping_path reached).2 in
  mapping_cell os translate (before ++ (model, name) :: later) w = (inl e, left) /\
  (left = reached \/
   (e = OSError /\
    exists mapped_model,
      translate model = inr mapped_model /\
      left =
        after os reached
          [(rxn_path output_mapping_path name,
            rxn_columns (Reaction.id <$> Model.reactions model) mapped_model)])).
Proof.
  intros Hbefore Hraise reached left. split.
  - rewrite mapping_cell_app. subst left reached.
    destruct (mapping_cell os translate before w) as [[e0|[]] w1];
      [discriminate Hbefore|]. cbn [snd] in *. rewrite mapping_cell_cons.
    destruct (export_mergem_mapping os translate model name output_mapping_path w1)
      as [[e1|[]] w2]; cbn [fst snd] in *; [|discriminate Hraise].
    congruence.
  - apply export_mergem_mapping_raised. exact Hraise.
Qed.

Lemma mapping_cell_stops_witness :
  mapping_cell locked_os translate_id
    ([(test_model, "au_CHO")] ++ (shared_model, "au_A_aegypti")
       :: [(test_model, "au_E_siliculosus")]) empty_world =
  (inl OSError,
   after locked_os empty_world
     (tables output_mapping_path "au_CHO" test_model test_model
      ++ [(rxn_path output_mapping_path "au_A_aegypti",
           rxn_columns (Reaction.id <$> Model.reactions shared_model)
             shared_model)])).
Proof.
  destruct (mapping_cell_stops locked_os translate_id [(test_model, "au_CHO")]
              shared_model "au_A_aegypti" [(test_model, "au_E_siliculosus")]
              empty_world OSError) as [Hcell _].
  - vm_compute. reflexivity.
  - vm_compute. reflexivity.
  - rewrite Hcell. vm_compute. reflexivity.
Defined.

Lemma export_mergem_mapping_frame
    (os : OS) (translate : Model.t -> exn + Model.t) (model : Model.t)
    (name out : string) (w : World) (file : string) :
  file <> file_of os (rxn_path out name) ->
  file <> file_of os (met_path out name) ->
  disk (export_mergem_mapping os translate model name out w).2 !! file =
  disk w !! file.
Proof.
  intros Hr Hm. rewrite export_mergem_mapping_run.
  destruct (translate model) as [e|mapped_model]; [reflexivity|].
  repeat case_decide; try reflexivity.
  destruct (can_write os (rxn_path out name)); [|reflexivity].
  destruct (can_write os (met_path out name)); cbn [snd after disk apply_writes foldl tables fst].
  - rewrite !lookup_insert_ne by congruence. reflexivity.
  - rewrite lookup_insert_ne by congruence. reflexivity.
Qed.

(** A cell touches no file but the tables of its own models. *)
Lemma mapping_cell_frame
    (os : OS) (translate : Model.t -> exn + Model.t)
    (calls : list (Model.t * string)) (w : World) (file : string) :
  (forall name : string,
     name ∈ calls.*2 ->
     file <> file_of os (rxn_path output_mapping_path name) /\
     file <> file_of os (met_path output_mapping_path name)) ->
  disk (mapping_cell os translate calls w).2 !! file = disk w !! file.
Proof.
  revert w. induction calls as [|[model name] calls IH]; intros w Hother.
  - reflexivity.
  - rewrite mapping_cell_cons.
    destruct (Hother name) as [Hr Hm]; [left|].
    pose proof (export_mergem_mapping_frame os translate model name
                  output_mapping_path w file Hr Hm) as Hframe.
    destruct (export_mergem_mapping os translate model name output_mapping_path w)
      as [[e|[]] w1]; cbn [fst snd] in *.
    + exact Hframe.
    + rewrite IH by (intros n Hn; apply Hother; right; exact Hn). exact Hframe.
Qed.

(** X18: a cell, whether it returns or raises, changes no file other
    than the tables of its own models: a file whose content differs after
    the cell is the file of the reaction table or of the metabolite table
    of one of the names passed in the cell. *)
Theorem mapping_cell_other_files
    (os : OS) (translate : Model.t -> exn + Model.t)
    (calls : list (Model.t * string)) (w : World) (file : string) :
  disk (mapping_cell os translate calls w).2 !! file <> disk w !! file ->
  exists name : string,
    name ∈ calls.*2 /\
    (file = file_of os (rxn_path output_mapping_path name) \/
     file = file_of os (met_path output_mapping_path name)).
Proof.
  intros Hchanged.
  destruct (decide (file ∈ file_of os <$>
                      ((rxn_path output_mapping_path <$> calls.*2)
                       ++ (met_path output_mapping_path <$> calls.*2))))
    as [Hin|Hout].
  - apply list_elem_of_fmap in Hin as (path & -> & Hin).
    apply elem_of_app in Hin as [Hin|Hin];
      apply list_elem_of_fmap in Hin as (name & -> & Hname); eauto.
  - exfalso. apply Hchanged, mapping_cell_frame. intros name Hname.
    split; intros ->; apply Hout, list_elem_of_fmap;
      eexists; (split; [reflexivity|]); apply elem_of_app; [left | right];
      apply list_elem_of_fmap; eauto.
Qed.

Lemma mapping_cell_other_files_witness :
  exists name : string,
    name ∈ [(test_model, "cv_CHO"); (empty_model, "cv_A_aegypti")].*2 /\
    ("mapping_results/cv_CHO_rxn_mergem_mapping.csv"
       = file_of plain_os (rxn_path output_mapping_path name) \/
     "mapping_results/cv_CHO_rxn_mergem_mapping.csv"
       = file_of plain_os (met_path output_mapping_path name)).
Proof.
  apply (mapping_cell_other_files plain_os translate_nonempty
           [(test_model, "cv_CHO"); (empty_model, "cv_A_aegypti")] empty_world).
  vm_compute. discriminate.
Defined.

Lemma elem_of_cell_paths (name : string) (names : list string) :
  name ∈ names ->
  rxn_path output_mapping_path name ∈ cell_paths names /\
  met_path output_mapping_path name ∈ cell_paths names.
Proof.
  induction names as [|n names IH]; intros Hin; [inversion Hin|].
  unfold cell_paths. rewrite fmap_cons. cbn [concat app].
  fold (cell_paths names). rewrite !elem_of_cons.
  apply elem_of_cons in Hin as [->|Hin]; [tauto|].
  destruct (IH Hin). tauto.
Qed.

(** X19: when a cell returns, and the paths it writes to name files that
    are all different, the two tables of every one of its models are on
    disk as the run of that model wrote them: no later call of the cell
    has replaced them. *)
Theorem mapping_cell_complete
    (os : OS) (translate : Model.t -> exn + Model.t)
    (calls : list (Model.t * string)) (w : World) :
  (mapping_cell os translate calls w).1 = inr tt ->
  NoDup (file_of os <$> cell_paths calls.*2) ->
  forall (model : Model.t) (name : string),
    (model, name) ∈ calls ->
    exists mapped_model,
      translate model = inr mapped_model /\
      disk (mapping_cell os translate calls w).2
        !! file_of os (rxn_path output_mapping_path name)
        = Some (rxn_columns (Reaction.id <$> Model.reactions model) mapped_model) /\
      disk (mapping_cell os translate calls w).2
        !! file_of os (met_path output_mapping_path name)
        = Some (met_columns (Metabolite.id <$> Model.metabolites model) mapped_model).
Proof.
  revert w. induction calls as [|[model0 name0] calls IH];
    intros w Hok Hnd model name Hin; [inversion Hin|].
  unfold cell_paths in Hnd. rewrite !fmap_cons in Hnd. cbn [concat app] in Hnd.
  rewrite !fmap_cons in Hnd. fold (cell_paths calls.*2) in Hnd.
  apply NoDup_cons in Hnd as [Hrxn0 Hnd]. apply NoDup_cons in Hnd as [Hmet0 Hnd].
  rewrite mapping_cell_cons in Hok |- *.
  pose proof (export_mergem_mapping_written os translate model0 name0
                output_mapping_path w) as Hwritten.
  destruct (export_mergem_mapping os translate model0 name0 output_mapping_path w)
    as [[e|[]] w1]; cbn [fst snd] in *; [discriminate Hok|].
  apply elem_of_cons in Hin as [[= -> ->] | Hin]; [|apply IH; assumption].
  destruct (Hwritten eq_refl) as (mapped_model & Htr & ->).
  exists mapped_model. split; [exact Htr|].
  assert (forall n : string, n ∈ calls.*2 ->
            file_of os (rxn_path output_mapping_path n) ∈
              file_of os <$> cell_paths calls.*2 /\
            file_of os (met_path output_mapping_path n) ∈
              file_of os <$> cell_paths calls.*2) as Hlater.
  { intros n Hn. destruct (elem_of_cell_paths n _ Hn).
    split; apply list_elem_of_fmap; eauto. }
  rewrite !mapping_cell_frame.
  - rewrite disk_after_tables. split.
    + rewrite lookup_insert_ne; [apply lookup_insert_eq|].
      intros H. apply Hrxn0. rewrite <- H. left.
    + apply lookup_insert_eq.
  - intros n Hn. destruct (Hlater n Hn) as [Hr Hm].
    split; intros H; apply Hmet0; rewrite H; assumption.
  - intros n Hn. destruct (Hlater n Hn) as [Hr Hm].
    split; intros H; apply Hrxn0; right; rewrite H; assumption.
Qed.

Lemma mapping_cell_complete_witness :
  exists mapped_model,
    translate_id shared_model = inr mapped_model /\
    disk (mapping_cell plain_os translate_id
            [(shared_model, "r_CHO"); (test_model, "r_A_aegypti")] empty_world).2
      !! file_of plain_os (rxn_path output_mapping_path "r_CHO")
      = Some (rxn_columns (Reaction.id <$> Model.reactions shared_model) mapped_model) /\
    disk (mapping_cell plain_os translate_id
            [(shared_model, "r_CHO"); (test_model, "r_A_aegypti")] empty_world).2
      !! file_of plain_os (met_path output_mapping_path "r_CHO")
      = Some (met_columns (Metabolite.id <$> Model.metabolites shared_model) mapped_model).
Proof.
  apply (mapping_cell_complete plain_os translate_id
           [(shared_model, "r_CHO"); (test_model, "r_A_aegypti")] empty_world).
  - vm_compute. reflexivity.
  - apply (bool_decide_eq_true_1
             (NoDup (file_of plain_os <$> cell_paths ["r_CHO"; "r_A_aegypti"]))).
    vm_compute. reflexivity.
  - left.
Defined.

(** Two names for one file: the second call replaces the tables of the
    first. *)
Example mapping_cell_same_file :
  let os := {| file_of := fun path =>
                 if String.prefix "mapping_results/./" path
                 then "mapping_results/" +:+ String.substring 18 (String.length path) path
                 else path;
               can_write := fun _ => true |} in
  (mapping_cell os translate_id
     [(shared_model, "x"); (test_model, "./x")] empty_world).1 = inr tt /\
  disk (mapping_cell os translate_id
          [(shared_model, "x"); (test_model, "./x")] empty_world).2
    !! file_of os (rxn_path output_mapping_path "x")
    = Some (rxn_columns (Reaction.id <$> Model.reactions test_model) test_model).
Proof. split; vm_compute; reflexivity. Qed.

(** ** Rows of the reaction table *)

Lemma final_rxn_id_sentinel (rxn : Reaction.t) :
  final_rxn_id rxn = "Transport removed" <->
  is_transport rxn = 1 \/ Reaction.id rxn = "Transport removed".
Proof.
  destruct (is_transport_range rxn) as [H | H].
  - rewrite final_rxn_id_transport by exact H. tauto.
  - rewrite final_rxn_id_local by exact H. split.
    + intros Hs. right. apply extract_core_id_sentinel, Hs.
    + intros [H1 | ->]; [congruence | reflexivity].
Qed.

(** X20: every row of the reaction table that a run writes can be
    checked on its own: the flag is [0] or [1], the final identifier is
    the sentinel when the flag is [1] and the canonicalized raw identifier
    when it is [0], and the final identifier is the sentinel only for a
    flagged row or for a raw identifier that is itself that text. *)
Theorem reaction_row_consistent
    (os : OS) (translate : Model.t -> exn + Model.t)
    (model mapped_model : Model.t) (name out : string) (w : World) :
  translate model = inr mapped_model ->
  (export_mergem_mapping os translate model name out w).1 = inr tt ->
  exists rxn_df met_df,
    (export_mergem_mapping os translate model name out w).2 =
      after os w [(rxn_path out name, rxn_df); (met_path out name, met_df)] /\
    forall (i : nat) (cells : list Cell),
      row i rxn_df = Some cells ->
      exists original raw flag final,
        cells = [Str original; Str raw; Int flag; Str final] /\
        (flag = 0 \/ flag = 1) /\
        final = (if flag =? 1 then "Transport removed" else extract_core_id raw) /\
        (final = "Transport removed" <->
         flag = 1 \/ raw = "Transport removed").
Proof.
  intros Htr Hok.
  destruct (export_mergem_mapping_returns os _ _ _ name out w Htr Hok)
    as (_ & _ & Hrun).
  do 2 eexists. split; [exact Hrun|].
  intros i cells. rewrite row_rxn_columns.
  destruct (_ !! i) as [o|]; [|discriminate].
  destruct (Model.reactions mapped_model !! i) as [rxn|]; [|discriminate].
  intros [= <-].
  exists o, (Reaction.id rxn), (is_transport rxn), (final_rxn_id rxn).
  split; [reflexivity|].
  split; [destruct (is_transport_range rxn); auto|].
  split; [|apply final_rxn_id_sentinel].
  destruct (is_transport_range rxn) as [H | H].
  - rewrite final_rxn_id_transport, H by exact H. reflexivity.
  - rewrite final_rxn_id_local, H by exact H. reflexivity.
Qed.

Lemma reaction_row_consistent_witness :
  exists rxn_df met_df,
    (export_mergem_mapping plain_os translate_id shared_model
       "me_CHO" "mapping_results" empty_world).2 =
      after plain_os empty_world
        [(rxn_path "mapping_results" "me_CHO", rxn_df);
         (met_path "mapping_results" "me_CHO", met_df)] /\
    nrows rxn_df = 6%nat.
Proof.
  destruct (reaction_row_consistent plain_os translate_id shared_model shared_model
              "me_CHO" "mapping_results" empty_world)
    as (rxn_df & met_df & Hrun & _).
  - reflexivity.
  - vm_compute. reflexivity.
  - exists rxn_df, met_df. split; [exact Hrun|].
    assert ([(rxn_path "mapping_results" "me_CHO", rxn_df);
             (met_path "mapping_results" "me_CHO", met_df)] =
            tables "mapping_results" "me_CHO" shared_model shared_model) as [= -> _].
    { apply (after_inj plain_os empty_world). rewrite <- Hrun.
      vm_compute. reflexivity. }
    reflexivity.
Defined.
